(** * Silverman's critical-bandwidth search: a shallow embedding

    The notebook [Silverman.ipynb] defines four functions: [find_maxima],
    [binary_search], [find_critical_value] and [bootstrap].  They are
    embedded here as Rocq functions.

    Modelling choices.
    - Bandwidths and sample points are NumPy floats in the notebook; they are
      exact rationals ([Q]) here.  The search is run on the grid of exact
      arithmetic, [arange]; the grid itself is also given with the rounding
      of double arithmetic as a parameter, [np_arange].
    - Python exceptions are an explicit [result] type.
    - The library calls ([sns.kdeplot], [signal.argrelmax],
      [gaussian_kde(...).resample]) are parameters of a [Section].
    - The matplotlib current figure, written by [plt.clf] and [sns.kdeplot],
      is an explicit state threaded through [find_maxima_fig].
    - The random source and standard output are an explicit [World]. *)

From Stdlib Require Import List ZArith QArith Qround Qpower Lia Lqa Bool String
  Wellfounded.
From Equations Require Import Equations.
From Equations.Prop Require Import Logic.
Import ListNotations.

Local Open Scope Z_scope.

(** ** Exceptions *)

Inductive exn : Type :=
| IndexError
| ZeroDivisionError
| NameError (name : string)
| LibraryError.

Inductive result (A : Type) : Type :=
| Ok (a : A)
| Raise (e : exn).

Arguments Ok {A} a.
Arguments Raise {A} e.

Definition bind {A B : Type} (m : result A) (f : A -> result B) : result B :=
  match m with
  | Ok a => f a
  | Raise e => Raise e
  end.

Notation "x <- m ;; f" := (bind m (fun x => f))
  (at level 61, m at next level, right associativity).
Notation "' p <- m ;; f" := (bind m (fun x => match x with p => f end))
  (at level 61, p pattern, m at next level, right associativity).

(** ** Python sequences *)

(** [l[i]]: a negative index counts from the end of the sequence; an index
    outside [-len(l) .. len(l)-1] raises [IndexError]. *)
Definition py_index {A : Type} (l : list A) (i : Z) : result A :=
  let n := Z.of_nat (List.length l) in
  let j := if i <? 0 then i + n else i in
  if (0 <=? j) && (j <? n) then
    match nth_error l (Z.to_nat j) with
    | Some a => Ok a
    | None => Raise IndexError
    end
  else Raise IndexError.

(** [np.arange(0, stop, step)]: [ceil(stop / step)] values [i * step];
    a zero step has no length. *)
Definition arange_len (stop step : Q) : nat :=
  Z.to_nat (Qceiling (stop / step)).

Definition arange (stop step : Q) : result (list Q) :=
  if Qeq_bool step 0 then Raise ZeroDivisionError
  else Ok (map (fun i => inject_Z (Z.of_nat i) * step)%Q
               (seq 0 (arange_len stop step))).

(** The same grid with the rounding of double arithmetic.  [fl] takes a real
    number to the double nearest to it; [stop] and [step] are the values of
    two doubles.  The length is the ceiling of the double quotient
    [stop / step] and the [i]-th value is the double product [i * step].
    [arange] is this grid for exact arithmetic, [fl x = x]. *)
Definition np_arange (fl : Q -> Q) (stop step : Q) : result (list Q) :=
  if Qeq_bool step 0 then Raise ZeroDivisionError
  else Ok (map (fun i => fl (inject_Z (Z.of_nat i) * step))%Q
               (seq 0 (Z.to_nat (Qceiling (fl (stop / step)%Q))))).

(** The unit roundoff of binary64, [2^-53]. *)
Definition unit_roundoff : Q := 1 # 9007199254740992.

(** Rounding to the nearest number with a 53-bit significand, ties to even:
    the rounding of binary64 arithmetic, without the bounds on its exponent
    (no overflow, no subnormal numbers). *)

(** The integer nearest to [m], the even one of two at the same distance. *)
Definition round_half_even (m : Q) : Z :=
  let f := Qfloor m in
  match (m - inject_Z f ?= 1 # 2)%Q with
  | Lt => f
  | Gt => f + 1
  | Eq => if Z.even f then f else f + 1
  end.

(** The binary exponent of a positive [x]: [2^e <= x < 2^(e+1)]. *)
Definition exponent (x : Q) : Z :=
  let e0 := Z.log2 (Qnum x) - Z.log2 (Z.pos (Qden x)) in
  if Qle_bool (2 ^ e0) x then e0 else e0 - 1.

(** A positive [x]: its significand [x * 2^(52-e)], in [2^52, 2^53), is
    rounded to an integer. *)
Definition round53_pos (x : Q) : Q :=
  let e := exponent x in
  (inject_Z (round_half_even (x * 2 ^ (52 - e))) * 2 ^ (e - 52))%Q.

(** Zero is a double; a negative number is rounded as its opposite. *)
Definition round53 (x : Q) : Q :=
  match (x ?= 0)%Q with
  | Eq => 0%Q
  | Gt => round53_pos x
  | Lt => (- round53_pos (- x))%Q
  end.

(** What is used of rounding to nearest, on the numbers that are not
    negative: it keeps the order, and an integer of at most 53 bits is a
    double. *)
Record rounding (fl : Q -> Q) : Prop := mk_rounding {
  fl_monotone : forall x y : Q, (0 <= x)%Q -> (x <= y)%Q -> (fl x <= fl y)%Q;
  fl_integer : forall (x : Q) (n : Z),
      0 <= n <= 2 ^ 53 -> (x == inject_Z n)%Q -> (fl x == inject_Z n)%Q
}.

(** The relative error of the products [i * step] that do not exceed [stop]
    is at most the unit roundoff. *)
Definition product_error (fl : Q -> Q) (stop step : Q) : Prop :=
  forall i : Z,
    0 <= i -> (inject_Z i * step <= stop)%Q ->
    ((1 - unit_roundoff) * (inject_Z i * step) <= fl (inject_Z i * step))%Q /\
    (fl (inject_Z i * step) <= (1 + unit_roundoff) * (inject_Z i * step))%Q.

(** ** The state of the binary search *)

Record bs_state : Type := mk_bs {
  start : Z;
  end_ : Z;
  found : bool;
  found_h : Q
}.

Definition set_start (s : bs_state) (v : Z) : bs_state :=
  mk_bs v (end_ s) (found s) (found_h s).

Definition set_end (s : bs_state) (v : Z) : bs_state :=
  mk_bs (start s) v (found s) (found_h s).

Definition set_found (s : bs_state) (h : Q) : bs_state :=
  mk_bs (start s) (end_ s) true h.

(** The loop condition [(start <= end) and (found == False)]. *)
Definition guard (s : bs_state) : bool :=
  (start s <=? end_ s) && Bool.eqb (found s) false.

(** The number of indices left in [start .. end]; [0] once [found]. *)
Definition remaining (s : bs_state) : nat :=
  if found s then 0%nat else Z.to_nat (end_ s - start s + 1).

(** [int((start + end) / 2)]: true division, then truncation towards zero. *)
Definition midpoint_of (s : bs_state) : Z :=
  Z.quot (start s + end_ s) 2.

(** A line of a plot: its x and y data. *)
Definition line : Type := (list Q * list Q)%type.

(** The lines of the current axes of matplotlib's current figure. *)
Definition figure : Type := list line.

(** The placeholder [found_h = 12345]: a Python [int], which compares equal to
    the float [12345.0]; both are the same rational here. *)
Definition placeholder : Q := 12345 # 1.

(** ** The notebook's module-level names *)

(** The data cell. *)
Definition chondrites : list Q :=
  [20.77; 22.56; 22.71; 22.99; 26.39; 27.08; 27.32; 27.33; 27.57; 27.81;
   28.69; 29.36; 30.25; 31.89; 32.88; 33.23; 33.28; 33.40; 33.52; 33.83;
   33.95; 34.82]%Q.

Inductive pyobj : Type :=
| PyModule
| PyFunction
| PyArray (a : list Q).

(** What the import cell, the data cell and the four [def] cells bind.  The
    last code cell binds [h], [_] and [locList] besides. *)
Definition notebook_globals : list (string * pyobj) :=
  [("sns", PyModule); ("np", PyModule); ("stats", PyModule);
   ("signal", PyModule); ("plt", PyModule); ("pd", PyModule);
   ("chondrites", PyArray chondrites);
   ("find_critical_value", PyFunction); ("find_maxima", PyFunction);
   ("binary_search", PyFunction); ("bootstrap", PyFunction)]%string.

(** Reading a name that is not local to the function. *)
Fixpoint load_global (globals : list (string * pyobj)) (name : string)
  : result pyobj :=
  match globals with
  | [] => Raise (NameError name)
  | (n, v) :: rest => if String.eqb n name then Ok v else load_global rest name
  end.

(** [range(lo, hi)]. *)
Definition py_range (lo hi : Z) : list Z :=
  map (fun i => lo + Z.of_nat i) (seq 0 (Z.to_nat (hi - lo))).

Section Silverman.

(** The curve [sns.kdeplot(data, bw=h)] computes and draws. *)
Variable kde : list Q -> Q -> result line.

(** [signal.argrelmax(y_vals)[0].tolist()]. *)
Variable argrelmax : list Q -> list Z.

(** *** find_maxima *)

Definition plt_clf (fig : figure) : figure := [].

Definition sns_kdeplot (data : list Q) (h : Q) (fig : figure)
  : result unit * figure :=
  match kde data h with
  | Ok ln => (Ok tt, fig ++ [ln])
  | Raise e => (Raise e, fig)
  end.

Fixpoint index_all (xs : list Q) (idxs : list Z) : result (list Q) :=
  match idxs with
  | [] => Ok []
  | i :: rest =>
      x <- py_index xs i ;;
      r <- index_all xs rest ;;
      Ok (x :: r)
  end.

Definition find_maxima_fig (fig : figure) (data : list Q) (h : Q)
  : result (Z * list Q) * figure :=
  let fig1 := plt_clf fig in
  let '(r, fig2) := sns_kdeplot data h fig1 in
  (_ <- r ;;
   '(x_vals, y_vals) <- py_index fig2 0 ;;
   let maxima := argrelmax y_vals in
   maxima_centers <- index_all x_vals maxima ;;
   Ok (Z.of_nat (List.length maxima), maxima_centers),
   fig2).

(** The report alone, from an empty figure. *)
Definition find_maxima (data : list Q) (h : Q) : result (Z * list Q) :=
  fst (find_maxima_fig [] data h).

(** [find_maxima(data, h)[0]]. *)
Definition mode_count (data : list Q) (h : Q) : result Z :=
  r <- find_maxima data h ;; Ok (fst r).

(** *** binary_search *)

Section Loop.

Variable data : list Q.
Variable searchList : list Q.
Variable k : Z.

(** One pass through the body of the [while]. *)
Definition body (s : bs_state) : result bs_state :=
  let midpoint := midpoint_of s in
  prop_h <- py_index searchList midpoint ;;
  c <- mode_count data prop_h ;;
  if c =? k then
    check_h <- py_index searchList (midpoint - 1) ;;
    c' <- mode_count data check_h ;;
    if c' =? k then Ok (set_end s (midpoint - 1))
    else Ok (set_found s prop_h)
  else
    c1 <- mode_count data prop_h ;;
    if c1 >? k then Ok (set_start s (midpoint + 1))
    else
      c2 <- mode_count data prop_h ;;
      if c2 <? k then Ok (set_end s (midpoint - 1))
      else Ok s.

Equations? while_loop (s : bs_state) : result bs_state
  by wf (remaining s) lt :=
  while_loop s with inspect (guard s) := {
    | exist _ false _ => Ok s
    | exist _ true Hg with inspect (body s) := {
        | exist _ (Raise e) _ => Raise e
        | exist _ (Ok s') Hb => while_loop s' } }.
Proof.
  unfold guard in Hg. apply andb_prop in Hg. destruct Hg as [Hle Hf].
  apply Z.leb_le in Hle. apply Bool.eqb_prop in Hf.
  assert (Hm : start s <= midpoint_of s <= end_ s).
  { unfold midpoint_of.
    destruct (Z_le_gt_dec 0 (start s + end_ s)) as [Hp | Hn].
    - rewrite Z.quot_div_nonneg by lia.
      split; [apply Z.div_le_lower_bound | apply Z.div_le_upper_bound];
        lia.
    - replace (start s + end_ s) with (- (- (start s + end_ s))) by lia.
      rewrite Z.quot_opp_l by lia.
      rewrite Z.quot_div_nonneg by lia.
      assert (H1 : (- (start s + end_ s)) / 2 <= - start s)
        by (apply Z.div_le_upper_bound; lia).
      assert (H2 : - end_ s <= (- (start s + end_ s)) / 2)
        by (apply Z.div_le_lower_bound; lia).
      lia. }
  unfold body in Hb.
  destruct (py_index searchList (midpoint_of s)) as [prop_h | ];
    simpl in Hb; [ | discriminate].
  destruct (mode_count data prop_h) as [c | ];
    simpl in Hb; [ | discriminate].
  unfold remaining. rewrite Hf.
  destruct (c =? k) eqn:Hck.
  - destruct (py_index searchList (midpoint_of s - 1)) as [check_h | ];
      simpl in Hb; [ | discriminate].
    destruct (mode_count data check_h) as [c' | ];
      simpl in Hb; [ | discriminate].
    destruct (c' =? k); inversion Hb; subst s'; simpl; try rewrite Hf; lia.
  - destruct (c >? k) eqn:Hgt.
    + inversion Hb; subst s'; simpl; rewrite Hf; lia.
    + destruct (c <? k) eqn:Hlt.
      * inversion Hb; subst s'; simpl; rewrite Hf; lia.
      * apply Z.eqb_neq in Hck. apply Z.ltb_ge in Hlt.
        rewrite Z.gtb_ltb in Hgt. apply Z.ltb_ge in Hgt. lia.
Qed.

(** *** What the loop maintains *)

(** What one iteration did, read off its result. *)
Inductive iteration (s s' : bs_state) : Prop :=
| iter_lower_same (prop_h check_h : Q) :
    py_index searchList (midpoint_of s) = Ok prop_h ->
    mode_count data prop_h = Ok k ->
    py_index searchList (midpoint_of s - 1) = Ok check_h ->
    mode_count data check_h = Ok k ->
    s' = set_end s (midpoint_of s - 1) ->
    iteration s s'
| iter_found (prop_h check_h : Q) (c' : Z) :
    py_index searchList (midpoint_of s) = Ok prop_h ->
    mode_count data prop_h = Ok k ->
    py_index searchList (midpoint_of s - 1) = Ok check_h ->
    mode_count data check_h = Ok c' ->
    c' <> k ->
    s' = set_found s prop_h ->
    iteration s s'
| iter_upper (prop_h : Q) (c : Z) :
    py_index searchList (midpoint_of s) = Ok prop_h ->
    mode_count data prop_h = Ok c ->
    c > k ->
    s' = set_start s (midpoint_of s + 1) ->
    iteration s s'
| iter_lower (prop_h : Q) (c : Z) :
    py_index searchList (midpoint_of s) = Ok prop_h ->
    mode_count data prop_h = Ok c ->
    c < k ->
    s' = set_end s (midpoint_of s - 1) ->
    iteration s s'.

(** The index range stays inside the grid. *)
Definition in_grid (s : bs_state) : Prop :=
  0 <= start s /\ end_ s <= Z.of_nat (List.length searchList) - 1.

(** [found_h] is the placeholder until a grid point is accepted; an accepted
    grid point [searchList[mid]] has [k] modes and the element the code
    compared it with, [searchList[mid - 1]], has another count. *)
Definition accepted (s : bs_state) : Prop :=
  exists mid check_h c',
    0 <= mid < Z.of_nat (List.length searchList) /\
    nth_error searchList (Z.to_nat mid) = Some (found_h s) /\
    mode_count data (found_h s) = Ok k /\
    py_index searchList (mid - 1) = Ok check_h /\
    mode_count data check_h = Ok c' /\
    c' <> k.

Definition search_inv (s : bs_state) : Prop :=
  in_grid s /\
  (found s = false -> found_h s = placeholder) /\
  (found s = true -> accepted s).

End Loop.

Definition binary_search_state (data : list Q) (searchMax searchStep : Q)
           (k : Z) : result bs_state :=
  searchList <- arange searchMax searchStep ;;
  let start := 0 in
  let end_ := Z.of_nat (List.length searchList) - 1 in
  let found := false in
  let found_h := placeholder in
  while_loop data searchList k (mk_bs start end_ found found_h).

Definition binary_search (data : list Q) (searchMax searchStep : Q) (k : Z)
  : result Q :=
  s <- binary_search_state data searchMax searchStep k ;;
  Ok (found_h s).

(** *** find_critical_value *)

(** The state of the random number generator. *)
Variable Rng : Type.

(** [stats.gaussian_kde(dataset=data, bw_method=h).resample()[0]]. *)
Variable resample : list Q -> Q -> Rng -> result (list Q) * Rng.

Record World : Type := mk_world {
  rng : Rng;
  stdout : list Z
}.

Definition print (i : Z) (w : World) : World :=
  mk_world (rng w) (stdout w ++ [i]).

Definition find_critical_value (data : list Q) (searchMax searchStep : Q)
           (k : Z) (w : World) : result Q * World :=
  match binary_search data searchMax searchStep k with
  | Raise e => (Raise e, w)
  | Ok h_crit =>
      let '(r, g) := resample data h_crit (rng w) in
      let w' := mk_world g (stdout w) in
      match r with
      | Raise e => (Raise e, w')
      | Ok X => (binary_search X searchMax searchStep k, w')
      end
  end.

(** *** bootstrap *)

Section Bootstrap.

Variable globals : list (string * pyobj).

(** The [for] loop over the remaining values of [i].  The call in its body
    names the module-level array [chondrites] and three literals. *)
Fixpoint bootstrap_loop (data : list Q) (searchMax searchStep : Q) (k : Z)
         (idxs : list Z) (hlist : list Q) (w : World)
  : result (list Q) * World :=
  match idxs with
  | [] => (Ok hlist, w)
  | i :: rest =>
      let w1 := print i w in
      let '(r, w2) := find_critical_value chondrites 10 0.01 2 w1 in
      match r with
      | Raise e => (Raise e, w2)
      | Ok h => bootstrap_loop data searchMax searchStep k rest
                               (hlist ++ [h]) w2
      end
  end.

Definition bootstrap (data : list Q) (searchMax searchStep : Q) (k : Z)
           (num_simulations : Z) (w : World)
  : result (list Q * pyobj) * World :=
  let hlist := [] in
  let '(r, w') :=
    bootstrap_loop data searchMax searchStep k
                   (py_range 0 num_simulations) hlist w in
  (hlist <- r ;;
   modesList <- load_global globals "modesList" ;;
   Ok (hlist, modesList),
   w').

End Bootstrap.

End Silverman.

(** ** Stand-ins for the libraries

    Small executable collaborators, used to run the notebook's functions on
    concrete inputs. *)

(** Modelled from the spec: the extrema collaborator, whose code is SciPy's;
    it returns the indices [i] with [values[i-1] < values[i] > values[i+1]]. *)
Fixpoint strict_maxima_from (i : Z) (ys : list Q) : list Z :=
  match ys with
  | a :: ((b :: c :: _) as rest) =>
      if Qlt_le_dec a b then
        if Qlt_le_dec c b then i + 1 :: strict_maxima_from (i + 1) rest
        else strict_maxima_from (i + 1) rest
      else strict_maxima_from (i + 1) rest
  | _ => []
  end.

Definition strict_maxima (ys : list Q) : list Z := strict_maxima_from 0 ys.

(** The number of clusters of a sorted sample at scale [h]: one more than the
    number of gaps between neighbours wider than [h]. *)
Fixpoint clusters (data : list Q) (h : Q) : nat :=
  match data with
  | a :: ((b :: _) as rest) =>
      if Qlt_le_dec h (b - a) then S (clusters rest h) else clusters rest h
  | _ => 1%nat
  end.

(** A curve with [n] peaks, at [x = 1, 3, ..]. *)
Fixpoint zigzag (n : nat) (x : Z) : list Q * list Q :=
  match n with
  | O => ([inject_Z x], [0%Q])
  | S m =>
      let '(xs, ys) := zigzag m (x + 2) in
      (inject_Z x :: inject_Z (x + 1) :: xs, 0%Q :: 1%Q :: ys)
  end.

(** A stand-in density estimate: one peak per cluster, for every [h]. *)
Definition cluster_kde (data : list Q) (h : Q) : result line :=
  Ok (zigzag (clusters data h) 0).

(** A stand-in density estimate that refuses a bandwidth that is not
    positive. *)
Definition positive_kde (data : list Q) (h : Q) : result line :=
  if Qle_bool h 0 then Raise LibraryError else cluster_kde data h.

(** A stand-in resampler: the sample itself; the generator counts draws. *)
Definition same_sample (data : list Q) (h : Q) (g : nat)
  : result (list Q) * nat :=
  (Ok data, S g).

(** * Properties *)

(** ** Python indexing *)

Lemma py_index_nonneg {A : Type} (l : list A) (i : Z) :
  0 <= i < Z.of_nat (List.length l) ->
  exists a, nth_error l (Z.to_nat i) = Some a /\ py_index l i = Ok a.
Proof.
  intros Hi. unfold py_index.
  destruct (i <? 0) eqn:Hneg; [apply Z.ltb_lt in Hneg; lia | ].
  replace ((0 <=? i) && (i <? Z.of_nat (List.length l))) with true
    by (symmetry; apply andb_true_intro; split;
        [apply Z.leb_le | apply Z.ltb_lt]; lia).
  destruct (nth_error l (Z.to_nat i)) as [a | ] eqn:Hn.
  - exists a. split; reflexivity.
  - apply nth_error_None in Hn. lia.
Qed.

Lemma py_index_Ok {A : Type} (l : list A) (i : Z) (a : A) :
  py_index l i = Ok a ->
  (0 <= i < Z.of_nat (List.length l) /\
   nth_error l (Z.to_nat i) = Some a) \/
  (- Z.of_nat (List.length l) <= i < 0 /\
   nth_error l (Z.to_nat (i + Z.of_nat (List.length l))) = Some a).
Proof.
  unfold py_index. intros H.
  set (n := Z.of_nat (List.length l)) in *.
  destruct (i <? 0) eqn:Hneg.
  - apply Z.ltb_lt in Hneg. right.
    destruct ((0 <=? i + n) && (i + n <? n)) eqn:Hr; [ | discriminate].
    apply andb_prop in Hr. destruct Hr as [H0 H1].
    apply Z.leb_le in H0.
    destruct (nth_error l (Z.to_nat (i + n))); inversion H; subst.
    split; [lia | reflexivity].
  - apply Z.ltb_ge in Hneg. left.
    destruct ((0 <=? i) && (i <? n)) eqn:Hr; [ | discriminate].
    apply andb_prop in Hr. destruct Hr as [H0 H1].
    apply Z.ltb_lt in H1.
    destruct (nth_error l (Z.to_nat i)); inversion H; subst.
    split; [lia | reflexivity].
Qed.

(** [l[-1]] is the last element of [l]. *)
Lemma py_index_minus_one {A : Type} (l : list A) (a : A) :
  py_index (l ++ [a]) (0 - 1) = Ok a.
Proof.
  unfold py_index. rewrite length_app. simpl List.length.
  replace (0 - 1 <? 0) with true by reflexivity.
  replace (0 - 1 + Z.of_nat (List.length l + 1)) with (Z.of_nat (List.length l))
    by lia.
  replace ((0 <=? Z.of_nat (List.length l))
           && (Z.of_nat (List.length l) <? Z.of_nat (List.length l + 1)))
    with true
    by (symmetry; apply andb_true_intro; split;
        [apply Z.leb_le | apply Z.ltb_lt]; lia).
  rewrite Nat2Z.id, nth_error_app2 by lia.
  rewrite Nat.sub_diag. reflexivity.
Qed.

(** ** The loop of binary_search *)

Lemma midpoint_bounds (s : bs_state) :
  start s <= end_ s -> start s <= midpoint_of s <= end_ s.
Proof.
  intros Hle. unfold midpoint_of.
  destruct (Z_le_gt_dec 0 (start s + end_ s)) as [Hp | Hn].
  - rewrite Z.quot_div_nonneg by lia.
    split; [apply Z.div_le_lower_bound | apply Z.div_le_upper_bound]; lia.
  - replace (start s + end_ s) with (- (- (start s + end_ s))) by lia.
    rewrite Z.quot_opp_l by lia.
    rewrite Z.quot_div_nonneg by lia.
    assert (H1 : (- (start s + end_ s)) / 2 <= - start s)
      by (apply Z.div_le_upper_bound; lia).
    assert (H2 : - end_ s <= (- (start s + end_ s)) / 2)
      by (apply Z.div_le_lower_bound; lia).
    lia.
Qed.

Lemma guard_true (s : bs_state) :
  guard s = true <-> start s <= end_ s /\ found s = false.
Proof.
  unfold guard. rewrite andb_true_iff, Z.leb_le.
  destruct (found s); simpl; intuition congruence.
Qed.

Section LoopFacts.

Variable kde : list Q -> Q -> result line.
Variable argrelmax : list Q -> list Z.
Variable data searchList : list Q.
Variable k : Z.

#[local] Abbreviation count := (mode_count kde argrelmax data).
#[local] Abbreviation step := (body kde argrelmax data searchList k).
#[local] Abbreviation loop := (while_loop kde argrelmax data searchList k).

Lemma body_iteration (s s' : bs_state) :
  step s = Ok s' -> iteration kde argrelmax data searchList k s s'.
Proof.
  unfold body. intros Hb.
  destruct (py_index searchList (midpoint_of s)) as [prop_h | ] eqn:Hp;
    simpl in Hb; [ | discriminate].
  destruct (count prop_h) as [c | ] eqn:Hc; simpl in Hb; [ | discriminate].
  destruct (c =? k) eqn:Hck.
  - apply Z.eqb_eq in Hck. subst c.
    destruct (py_index searchList (midpoint_of s - 1)) as [check_h | ] eqn:Hq;
      simpl in Hb; [ | discriminate].
    destruct (count check_h) as [c' | ] eqn:Hc';
      simpl in Hb; [ | discriminate].
    destruct (c' =? k) eqn:Hck'; inversion Hb; subst s'.
    + apply Z.eqb_eq in Hck'. subst c'. eapply iter_lower_same; eauto.
    + apply Z.eqb_neq in Hck'. eapply iter_found; eauto.
  - apply Z.eqb_neq in Hck.
    destruct (c >? k) eqn:Hgt.
    + inversion Hb; subst s'. eapply iter_upper; eauto.
      apply Z.gtb_gt; assumption.
    + rewrite Z.gtb_ltb in Hgt. apply Z.ltb_ge in Hgt.
      destruct (c <? k) eqn:Hlt.
      * inversion Hb; subst s'. eapply iter_lower; eauto.
        apply Z.ltb_lt; assumption.
      * apply Z.ltb_ge in Hlt. lia.
Qed.

Lemma while_loop_eq (s : bs_state) :
  loop s = if guard s then bind (step s) loop else Ok s.
Proof.
  funelim (loop s);
    try match goal with H : guard _ = _ |- _ => rewrite H end;
    try match goal with H : body _ _ _ _ _ _ = _ |- _ => rewrite H end;
    reflexivity.
Qed.

(** The proof rule of the [while]: a property kept by every iteration holds
    when the loop ends, and the loop condition is then false. *)
Lemma while_loop_rule (P : bs_state -> Prop) :
  (forall s s', guard s = true -> P s -> step s = Ok s' -> P s') ->
  forall s s', P s -> loop s = Ok s' -> P s' /\ guard s' = false.
Proof.
  intros Hstep s. funelim (loop s); intros s1 HP Hres.
  - inversion Hres; subst s1. auto.
  - eapply H; eauto.
  - discriminate.
Qed.

Lemma iteration_remaining (s s' : bs_state) :
  guard s = true -> step s = Ok s' ->
  (found s' = true \/
   (found s' = false /\ end_ s' - start s' < end_ s - start s)) /\
  (remaining s' < remaining s)%nat.
Proof.
  intros Hg Hb. apply guard_true in Hg. destruct Hg as [Hle Hf].
  pose proof (midpoint_bounds s Hle) as Hm.
  unfold remaining. rewrite Hf.
  destruct (body_iteration s s' Hb); subst s'; simpl; try rewrite Hf;
    (split; [ first [ left; reflexivity
                    | right; split; [reflexivity | lia] ]
            | lia ]).
Qed.

Lemma in_grid_kept (s s' : bs_state) :
  guard s = true -> in_grid searchList s -> step s = Ok s' ->
  in_grid searchList s'.
Proof.
  intros Hg [H0 HN] Hb. apply guard_true in Hg. destruct Hg as [Hle Hf].
  pose proof (midpoint_bounds s Hle) as Hm.
  destruct (body_iteration s s' Hb); subst s'; unfold in_grid; simpl; lia.
Qed.

Lemma search_inv_kept (s s' : bs_state) :
  guard s = true ->
  search_inv kde argrelmax data searchList k s ->
  step s = Ok s' ->
  search_inv kde argrelmax data searchList k s'.
Proof.
  intros Hg (Hin & Hph & Hacc) Hb.
  pose proof (in_grid_kept s s' Hg Hin Hb) as Hin'.
  apply guard_true in Hg. destruct Hg as [Hle Hf].
  pose proof (midpoint_bounds s Hle) as Hm. destruct Hin as [H0 HN].
  split; [assumption | ].
  destruct (body_iteration s s' Hb) as
    [p q Hp Hc Hq Hc' E | p q c' Hp Hc Hq Hc' Hne E
     | p c Hp Hc Hgt E | p c Hp Hc Hlt E];
    subst s'; simpl; try (split; [auto | rewrite Hf; discriminate]).
  split; [discriminate | ]. intros _.
  exists (midpoint_of s), q, c'. simpl.
  apply py_index_Ok in Hp. destruct Hp as [[Hr Hn] | [Hr _]]; [ | lia].
  repeat split; auto; lia.
Qed.

(** At [midpoint = 0] the code compares the first grid point with the last
    one: when both have [k] modes the first is not accepted and the range
    becomes empty. *)
Lemma first_probe_wraps (s : bs_state) (front : list Q) (first last : Q) :
  searchList = front ++ [last] ->
  midpoint_of s = 0 ->
  py_index searchList 0 = Ok first ->
  count first = Ok k ->
  count last = Ok k ->
  step s = Ok (set_end s (0 - 1)).
Proof.
  intros Hgrid Hmid Hfirst Hc Hc'. unfold body.
  rewrite Hmid, Hfirst. simpl. rewrite Hc. simpl. rewrite Z.eqb_refl.
  rewrite Hgrid, py_index_minus_one. simpl. rewrite Hc'. simpl.
  rewrite Z.eqb_refl. reflexivity.
Qed.

(** C10. The loop of [binary_search] terminates, for every sample, grid and
    [k]: the relation between a state that passes the loop condition and
    the state after one iteration is well founded, and an iteration that
    does not raise either sets [found] or leaves a strictly smaller index
    interval [start .. end]. *)
Theorem binary_search_loop_terminates :
  well_founded (fun s' s => guard s = true /\ step s = Ok s') /\
  (forall s s', guard s = true -> step s = Ok s' ->
     found s' = true \/
     (found s' = false /\ end_ s' - start s' < end_ s - start s)).
Proof.
  split.
  - apply (well_founded_lt_compat _ remaining).
    intros s' s [Hg Hb]. apply (iteration_remaining s s' Hg Hb).
  - intros s s' Hg Hb. apply (iteration_remaining s s' Hg Hb).
Qed.

(** C6. The step policy.  In a state of the loop whose index range lies in
    the grid, the probed index [mid] is a grid index; when the count at
    [searchList[mid]] exceeds [k] the iteration sets [start = mid + 1];
    when it is below [k] it sets [end = mid - 1]; when it equals [k] and
    [searchList[mid - 1]] yields [k] too it sets [end = mid - 1].  For
    [mid >= 1] the element [searchList[mid - 1]] is the previous grid
    point. *)
Theorem binary_search_step_policy (s : bs_state) :
  in_grid searchList s -> guard s = true ->
  0 <= midpoint_of s <= Z.of_nat (List.length searchList) - 1 /\
  exists prop_h,
    nth_error searchList (Z.to_nat (midpoint_of s)) = Some prop_h /\
    (forall c, count prop_h = Ok c ->
       (c > k -> step s = Ok (set_start s (midpoint_of s + 1))) /\
       (c < k -> step s = Ok (set_end s (midpoint_of s - 1))) /\
       (c = k -> forall check_h,
            py_index searchList (midpoint_of s - 1) = Ok check_h ->
            count check_h = Ok k ->
            step s = Ok (set_end s (midpoint_of s - 1)))) /\
    (1 <= midpoint_of s ->
     exists prev,
       nth_error searchList (Z.to_nat (midpoint_of s - 1)) = Some prev /\
       py_index searchList (midpoint_of s - 1) = Ok prev).
Proof.
  intros [H0 HN] Hg. apply guard_true in Hg. destruct Hg as [Hle Hf].
  pose proof (midpoint_bounds s Hle) as Hm.
  split; [lia | ].
  destruct (py_index_nonneg searchList (midpoint_of s)) as (p & Hn & Hp);
    [lia | ].
  exists p. split; [assumption | ]. split.
  - intros c Hc. unfold body. rewrite Hp. simpl. rewrite Hc. simpl.
    repeat split.
    + intros Hgt.
      replace (c =? k) with false by (symmetry; apply Z.eqb_neq; lia).
      replace (c >? k) with true by (symmetry; apply Z.gtb_gt; lia).
      reflexivity.
    + intros Hlt.
      replace (c =? k) with false by (symmetry; apply Z.eqb_neq; lia).
      replace (c >? k) with false
        by (symmetry; rewrite Z.gtb_ltb; apply Z.ltb_ge; lia).
      replace (c <? k) with true by (symmetry; apply Z.ltb_lt; lia).
      reflexivity.
    + intros Heq check_h Hq Hc'. subst c. rewrite Z.eqb_refl.
      rewrite Hq. simpl. rewrite Hc'. simpl. rewrite Z.eqb_refl.
      reflexivity.
  - intros H1.
    destruct (py_index_nonneg searchList (midpoint_of s - 1))
      as (q & Hnq & Hq); [lia | ].
    exists q. split; assumption.
Qed.

End LoopFacts.

(** ** find_maxima *)

Section FindMaximaFacts.

Variable kde : list Q -> Q -> result line.
Variable argrelmax : list Q -> list Z.

Lemma find_maxima_fig_result (fig : figure) (data : list Q) (h : Q) :
  fst (find_maxima_fig kde argrelmax fig data h) =
  match kde data h with
  | Raise e => Raise e
  | Ok (x_vals, y_vals) =>
      maxima_centers <- index_all x_vals (argrelmax y_vals) ;;
      Ok (Z.of_nat (List.length (argrelmax y_vals)), maxima_centers)
  end.
Proof.
  unfold find_maxima_fig, sns_kdeplot, plt_clf.
  destruct (kde data h) as [[x_vals y_vals] | e]; reflexivity.
Qed.

(** What the call leaves in the current figure: the curve it drew, alone. *)
Lemma find_maxima_fig_figure (fig : figure) (data : list Q) (h : Q) :
  snd (find_maxima_fig kde argrelmax fig data h) =
  match kde data h with
  | Raise _ => []
  | Ok ln => [ln]
  end.
Proof.
  unfold find_maxima_fig, sns_kdeplot, plt_clf.
  destruct (kde data h) as [ln | e]; reflexivity.
Qed.

(** C8, as the code has it.  The report of [find_maxima], count and
    locations, is a function of the sample and the bandwidth alone: it is
    the same whatever the current figure holds when the call starts.  The
    call is not free of side effects: it clears matplotlib's current figure
    and draws on it, so what the figure held is lost and it holds the new
    curve alone afterwards (nothing, if the density estimate raised). *)
Theorem find_maxima_report_and_figure
        (fig1 fig2 : figure) (data : list Q) (h : Q) :
  fst (find_maxima_fig kde argrelmax fig1 data h) =
  fst (find_maxima_fig kde argrelmax fig2 data h) /\
  snd (find_maxima_fig kde argrelmax fig1 data h) =
  snd (find_maxima_fig kde argrelmax fig2 data h) /\
  snd (find_maxima_fig kde argrelmax fig1 data h) =
  match kde data h with
  | Raise _ => []
  | Ok ln => [ln]
  end.
Proof.
  rewrite !find_maxima_fig_result, !find_maxima_fig_figure.
  repeat split.
Qed.

(** C7, as the code has it.  [find_maxima] does not look at the sign of the
    bandwidth: it raises exactly when the density estimate raises for that
    sample and bandwidth, or when a maximum's index is outside [x_vals];
    the exception is that call's own. *)
Theorem find_maxima_raises_iff (data : list Q) (h : Q) (e : exn) :
  find_maxima kde argrelmax data h = Raise e <->
  (kde data h = Raise e \/
   exists x_vals y_vals,
     kde data h = Ok (x_vals, y_vals) /\
     index_all x_vals (argrelmax y_vals) = Raise e).
Proof.
  unfold find_maxima. rewrite find_maxima_fig_result.
  destruct (kde data h) as [[x_vals y_vals] | e0].
  - destruct (index_all x_vals (argrelmax y_vals)) as [locs | e1] eqn:Hi;
      simpl; split.
    + discriminate.
    + intros [H | (xs & ys & H & Hr)]; [discriminate | ].
      inversion H; subst. rewrite Hi in Hr. discriminate.
    + intros H. right. exists x_vals, y_vals. inversion H; subst.
      split; [reflexivity | assumption].
    + intros [H | (xs & ys & H & Hr)]; [discriminate | ].
      inversion H; subst. rewrite Hi in Hr. inversion Hr. reflexivity.
  - split.
    + intros H. left. inversion H. reflexivity.
    + intros [H | (xs & ys & H & _)]; [ | discriminate].
      inversion H. reflexivity.
Qed.

End FindMaximaFacts.

(** ** The grid *)

Lemma arange_Ok (stop step : Q) :
  (0 < step)%Q ->
  arange stop step =
  Ok (map (fun i => inject_Z (Z.of_nat i) * step)%Q
          (seq 0 (arange_len stop step))).
Proof.
  intros Hpos. unfold arange.
  destruct (Qeq_bool step 0) eqn:Hz; [ | reflexivity].
  apply Qeq_bool_eq in Hz. rewrite Hz in Hpos.
  exfalso. apply (Qlt_irrefl 0). assumption.
Qed.

Lemma arange_inv (stop step : Q) (grid : list Q) :
  arange stop step = Ok grid ->
  grid = map (fun i => inject_Z (Z.of_nat i) * step)%Q
             (seq 0 (arange_len stop step)).
Proof.
  unfold arange. destruct (Qeq_bool step 0); [discriminate | ].
  intros H. inversion H. reflexivity.
Qed.

Lemma grid_nth (step : Q) (n i : nat) :
  (i < n)%nat ->
  nth_error (map (fun i => inject_Z (Z.of_nat i) * step)%Q (seq 0 n)) i =
  Some (inject_Z (Z.of_nat i) * step)%Q.
Proof.
  intros Hi.
  rewrite nth_error_map, nth_error_seq.
  destruct (Nat.ltb_spec i n); [reflexivity | lia].
Qed.

Lemma grid_nth_inv (step : Q) (n i : nat) (x : Q) :
  nth_error (map (fun i => inject_Z (Z.of_nat i) * step)%Q (seq 0 n)) i =
  Some x ->
  (i < n)%nat /\ x = (inject_Z (Z.of_nat i) * step)%Q.
Proof.
  intros H.
  assert (Hi : (i < n)%nat).
  { assert (Hs : nth_error
                   (map (fun i => inject_Z (Z.of_nat i) * step)%Q (seq 0 n)) i
                 <> None) by (rewrite H; discriminate).
    apply nth_error_Some in Hs. rewrite length_map, length_seq in Hs.
    assumption. }
  rewrite grid_nth in H by assumption. inversion H. auto.
Qed.

(** ** Rounding to 53 bits *)

Lemma two_nonzero : ~ (2 == 0)%Q.
Proof. discriminate. Qed.

Lemma pow2_pos (z : Z) : (0 < 2 ^ z)%Q.
Proof. apply Qpower_0_lt. reflexivity. Qed.

Lemma pow2_add (a b : Z) : (2 ^ (a + b) == 2 ^ a * 2 ^ b)%Q.
Proof. apply Qpower_plus, two_nonzero. Qed.

Lemma pow2_inject (z : Z) : 0 <= z -> (2 ^ z == inject_Z (2 ^ z))%Q.
Proof. intros H. rewrite (Zpower_Qpower 2 z H). reflexivity. Qed.

Lemma pow2_le (a b : Z) : a <= b -> (2 ^ a <= 2 ^ b)%Q.
Proof. intros H. apply Qpower_le_compat_l; [assumption | discriminate]. Qed.

Lemma pow2_cancel (a : Z) : (2 ^ a * 2 ^ (- a) == 1)%Q.
Proof.
  rewrite <- pow2_add. replace (a + - a) with 0 by lia. reflexivity.
Qed.

(** [exponent x] is the binary exponent of a positive [x]. *)
Lemma exponent_spec (x : Q) :
  (0 < x)%Q -> (2 ^ exponent x <= x)%Q /\ (x < 2 ^ (exponent x + 1))%Q.
Proof.
  intros Hx. destruct x as [n d].
  assert (Hn : 0 < n) by (unfold Qlt in Hx; simpl in Hx; lia).
  unfold exponent. simpl Qnum. simpl Qden.
  set (ln := Z.log2 n). set (ld := Z.log2 (Z.pos d)).
  destruct (Z.log2_spec n Hn) as [Hn0 Hn1]. fold ln in Hn0, Hn1.
  destruct (Z.log2_spec (Z.pos d) ltac:(lia)) as [Hd0 Hd1].
  fold ld in Hd0, Hd1.
  assert (Hln : 0 <= ln) by apply Z.log2_nonneg.
  assert (Hld : 0 <= ld) by apply Z.log2_nonneg.
  assert (Ex : (n # d == inject_Z n / inject_Z (Z.pos d))%Q)
    by apply Qmake_Qdiv.
  assert (Hdpos : (0 < inject_Z (Z.pos d))%Q) by reflexivity.
  (* upper bound: n # d < 2 ^ (ln - ld + 1) *)
  assert (Hup : (n # d < 2 ^ (ln - ld + 1))%Q).
  { rewrite Ex. apply Qlt_shift_div_r; [assumption | ].
    apply Qlt_le_trans with (2 ^ (ln - ld + 1) * 2 ^ ld)%Q.
    - rewrite <- pow2_add. replace (ln - ld + 1 + ld) with (Z.succ ln) by lia.
      rewrite pow2_inject by lia. rewrite <- Zlt_Qlt. assumption.
    - apply Qmult_le_l; [apply pow2_pos | ].
      rewrite pow2_inject by lia. rewrite <- Zle_Qle. assumption. }
  assert (Hlow : (2 ^ (ln - ld - 1) <= n # d)%Q).
  { rewrite Ex. apply Qle_shift_div_l; [assumption | ].
    apply Qle_trans with (2 ^ (ln - ld - 1) * 2 ^ (Z.succ ld))%Q.
    - apply Qmult_le_l; [apply pow2_pos | ].
      rewrite pow2_inject by lia. rewrite <- Zle_Qle. lia.
    - rewrite <- pow2_add. replace (ln - ld - 1 + Z.succ ld) with ln by lia.
      rewrite pow2_inject by lia. rewrite <- Zle_Qle. assumption. }
  destruct (Qle_bool (2 ^ (ln - ld)) (n # d)) eqn:Hb.
  - apply Qle_bool_iff in Hb. split; assumption.
  - split; [assumption | ].
    replace (ln - ld - 1 + 1) with (ln - ld) by lia.
    apply Qnot_le_lt. intros Hc. apply Qle_bool_iff in Hc.
    rewrite Hc in Hb. discriminate.
Qed.

Lemma round_half_even_cases (m : Q) :
  round_half_even m = Qfloor m \/ round_half_even m = Qfloor m + 1.
Proof.
  unfold round_half_even.
  destruct (m - inject_Z (Qfloor m) ?= 1 # 2)%Q; auto.
  destruct (Z.even (Qfloor m)); auto.
Qed.

Lemma round_half_even_error (m : Q) :
  (m - (1 # 2) <= inject_Z (round_half_even m))%Q /\
  (inject_Z (round_half_even m) <= m + (1 # 2))%Q.
Proof.
  pose proof (Qfloor_le m) as Hf. pose proof (Qlt_floor m) as Hc.
  rewrite inject_Z_plus in Hc. change (inject_Z 1) with 1%Q in Hc.
  unfold round_half_even.
  destruct (Qcompare_spec (m - inject_Z (Qfloor m)) (1 # 2)) as [E | L | G].
  - destruct (Z.even (Qfloor m)).
    + split; lra.
    + rewrite inject_Z_plus. change (inject_Z 1) with 1%Q. split; lra.
  - split; lra.
  - rewrite inject_Z_plus. change (inject_Z 1) with 1%Q. split; lra.
Qed.

Lemma round_half_even_integer (m : Q) (z : Z) :
  (m == inject_Z z)%Q -> round_half_even m = z.
Proof.
  intros E. unfold round_half_even.
  assert (Hf : Qfloor m = z) by (rewrite (Qfloor_comp _ _ E); apply Qfloor_Z).
  rewrite Hf.
  destruct (Qcompare_spec (m - inject_Z z) (1 # 2)) as [E' | L | G].
  - exfalso. rewrite E in E'. lra.
  - reflexivity.
  - exfalso. rewrite E in G. lra.
Qed.

Lemma round_half_even_monotone (m1 m2 : Q) :
  (m1 <= m2)%Q -> round_half_even m1 <= round_half_even m2.
Proof.
  intros Hle.
  pose proof (Qfloor_resp_le _ _ Hle) as Hf.
  destruct (Z.eq_dec (Qfloor m1) (Qfloor m2)) as [E | NE].
  - unfold round_half_even. rewrite E.
    destruct (Qcompare_spec (m1 - inject_Z (Qfloor m2)) (1 # 2))
      as [E1 | L1 | G1];
      destruct (Qcompare_spec (m2 - inject_Z (Qfloor m2)) (1 # 2))
        as [E2 | L2 | G2];
      try destruct (Z.even (Qfloor m2)); try lia; exfalso; lra.
  - destruct (round_half_even_cases m1) as [H1 | H1];
      destruct (round_half_even_cases m2) as [H2 | H2]; lia.
Qed.

(** The significand of a positive [x] lies between [2^52] and [2^53]. *)
Lemma significand_bounds (x : Q) :
  (0 < x)%Q ->
  (inject_Z (2 ^ 52) <= x * 2 ^ (52 - exponent x))%Q /\
  (x * 2 ^ (52 - exponent x) < inject_Z (2 ^ 53))%Q.
Proof.
  intros Hx. destruct (exponent_spec x Hx) as [Hlo Hhi].
  set (e := exponent x) in *.
  pose proof (pow2_pos (52 - e)) as Hp.
  rewrite <- !pow2_inject by lia. split.
  - replace 52 with (e + (52 - e)) at 1 by lia. rewrite pow2_add.
    apply Qmult_le_r; assumption.
  - replace 53 with (e + 1 + (52 - e)) by lia. rewrite pow2_add.
    apply Qmult_lt_r; assumption.
Qed.

Lemma rounded_significand_bounds (x : Q) :
  (0 < x)%Q ->
  2 ^ 52 <= round_half_even (x * 2 ^ (52 - exponent x)) <= 2 ^ 53.
Proof.
  intros Hx. destruct (significand_bounds x Hx) as [Hlo Hhi].
  split.
  - rewrite <- (round_half_even_integer (inject_Z (2 ^ 52)) (2 ^ 52))
      by reflexivity.
    apply round_half_even_monotone. assumption.
  - rewrite <- (round_half_even_integer (inject_Z (2 ^ 53)) (2 ^ 53))
      by reflexivity.
    apply round_half_even_monotone, Qlt_le_weak. assumption.
Qed.

Lemma significand_scaled (x : Q) (e : Z) :
  (x * 2 ^ (52 - e) * 2 ^ (e - 52) == x)%Q.
Proof.
  rewrite <- Qmult_assoc, <- pow2_add.
  replace (52 - e + (e - 52)) with 0 by lia.
  change (2 ^ 0)%Q with 1%Q. ring.
Qed.

Lemma round53_of_pos (x : Q) : (0 < x)%Q -> round53 x = round53_pos x.
Proof.
  intros Hx. unfold round53.
  destruct (Qcompare_spec x 0) as [E | L | G]; [ | | reflexivity];
    exfalso; lra.
Qed.

Lemma round53_of_zero (x : Q) : (x == 0)%Q -> round53 x = 0%Q.
Proof.
  intros Hx. unfold round53.
  destruct (Qcompare_spec x 0) as [E | L | G]; [reflexivity | | ];
    exfalso; lra.
Qed.

Lemma round53_pos_error (x : Q) :
  (0 < x)%Q ->
  ((1 - unit_roundoff) * x <= round53_pos x)%Q /\
  (round53_pos x <= (1 + unit_roundoff) * x)%Q.
Proof.
  intros Hx. unfold round53_pos.
  destruct (exponent_spec x Hx) as [Hlo _].
  set (e := exponent x) in *.
  set (m := (x * 2 ^ (52 - e))%Q).
  destruct (round_half_even_error m) as [H1 H2].
  set (r := inject_Z (round_half_even m)) in *.
  pose proof (pow2_pos (e - 52)) as HP.
  set (P := (2 ^ (e - 52))%Q) in *.
  assert (Ex : (m * P == x)%Q) by apply significand_scaled.
  assert (HeP : (2 ^ e == inject_Z (2 ^ 52) * P)%Q).
  { unfold P. rewrite <- pow2_inject by lia. rewrite <- pow2_add.
    replace (52 + (e - 52)) with e by lia. reflexivity. }
  rewrite HeP in Hlo.
  apply (Qmult_le_compat_r _ _ P) in H1; [ | apply Qlt_le_weak; assumption].
  apply (Qmult_le_compat_r _ _ P) in H2; [ | apply Qlt_le_weak; assumption].
  assert (E1 : ((m - (1 # 2)) * P == x - (1 # 2) * P)%Q)
    by (rewrite <- Ex; ring).
  assert (E2 : ((m + (1 # 2)) * P == x + (1 # 2) * P)%Q)
    by (rewrite <- Ex; ring).
  rewrite E1 in H1. rewrite E2 in H2.
  unfold unit_roundoff.
  change (inject_Z (2 ^ 52)) with (4503599627370496 # 1) in Hlo.
  split; lra.
Qed.

Lemma round53_pos_nonneg (x : Q) : (0 < x)%Q -> (0 <= round53_pos x)%Q.
Proof.
  intros Hx. destruct (round53_pos_error x Hx) as [H _].
  unfold unit_roundoff in H. lra.
Qed.

Lemma exponent_monotone (x y : Q) :
  (0 < x)%Q -> (x <= y)%Q -> exponent x <= exponent y.
Proof.
  intros Hx Hxy.
  assert (Hy : (0 < y)%Q) by lra.
  destruct (exponent_spec x Hx) as [Hx0 _].
  destruct (exponent_spec y Hy) as [_ Hy1].
  assert (Hlt : (2 ^ exponent x < 2 ^ (exponent y + 1))%Q) by lra.
  apply Qpower_lt_compat_l_inv in Hlt; [lia | reflexivity].
Qed.

Lemma round53_pos_monotone (x y : Q) :
  (0 < x)%Q -> (x <= y)%Q -> (round53_pos x <= round53_pos y)%Q.
Proof.
  intros Hx Hxy.
  assert (Hy : (0 < y)%Q) by lra.
  pose proof (exponent_monotone x y Hx Hxy) as He.
  destruct (Z.eq_dec (exponent x) (exponent y)) as [E | NE].
  - unfold round53_pos. rewrite E.
    apply Qmult_le_compat_r; [ | apply Qlt_le_weak, pow2_pos].
    rewrite <- Zle_Qle. apply round_half_even_monotone.
    apply Qmult_le_compat_r; [assumption | apply Qlt_le_weak, pow2_pos].
  - destruct (rounded_significand_bounds x Hx) as [_ Hrx].
    destruct (rounded_significand_bounds y Hy) as [Hry _].
    unfold round53_pos.
    apply Qle_trans with (2 ^ (exponent x + 1))%Q.
    + replace (exponent x + 1) with (53 + (exponent x - 52)) by lia.
      rewrite pow2_add.
      apply Qmult_le_compat_r; [ | apply Qlt_le_weak, pow2_pos].
      rewrite (pow2_inject 53) by lia. rewrite <- Zle_Qle. assumption.
    + apply Qle_trans with (2 ^ exponent y)%Q; [apply pow2_le; lia | ].
      replace (exponent y) with (52 + (exponent y - 52)) at 1 by lia.
      rewrite pow2_add.
      apply Qmult_le_compat_r; [ | apply Qlt_le_weak, pow2_pos].
      rewrite (pow2_inject 52) by lia. rewrite <- Zle_Qle. assumption.
Qed.

Lemma round53_monotone (x y : Q) :
  (0 <= x)%Q -> (x <= y)%Q -> (round53 x <= round53 y)%Q.
Proof.
  intros Hx Hxy.
  destruct (Qlt_le_dec 0 x) as [Hpos | Hzero].
  - rewrite (round53_of_pos x Hpos), (round53_of_pos y) by lra.
    apply round53_pos_monotone; assumption.
  - rewrite (round53_of_zero x) by lra.
    destruct (Qlt_le_dec 0 y) as [Hy | Hy].
    + rewrite (round53_of_pos y Hy). apply round53_pos_nonneg. assumption.
    + rewrite (round53_of_zero y) by lra. apply Qle_refl.
Qed.

Lemma round53_integer (x : Q) (n : Z) :
  0 <= n <= 2 ^ 53 -> (x == inject_Z n)%Q -> (round53 x == inject_Z n)%Q.
Proof.
  intros [Hn0 Hn1] E.
  destruct (Z.eq_dec n 0) as [Z0 | NZ].
  - subst n. rewrite (round53_of_zero x E). reflexivity.
  - assert (Hx : (0 < x)%Q).
    { rewrite E. replace 0%Q with (inject_Z 0) by reflexivity.
      rewrite <- Zlt_Qlt. lia. }
    rewrite (round53_of_pos x Hx). unfold round53_pos.
    destruct (exponent_spec x Hx) as [Hlo _].
    set (e := exponent x) in *.
    assert (He : e <= 53).
    { assert (Hle : (2 ^ e <= 2 ^ 53)%Q).
      { apply Qle_trans with x; [assumption | ]. rewrite E.
        rewrite pow2_inject by lia. rewrite <- Zle_Qle. assumption. }
      apply Qpower_le_compat_l_inv in Hle; [assumption | reflexivity]. }
    destruct (Z_le_gt_dec e 52) as [Hsmall | Hbig].
    + assert (Em : (x * 2 ^ (52 - e) == inject_Z (n * 2 ^ (52 - e)))%Q).
      { rewrite inject_Z_mult, E, pow2_inject by lia. reflexivity. }
      rewrite (round_half_even_integer _ _ Em).
      rewrite inject_Z_mult, <- pow2_inject by lia.
      rewrite <- Qmult_assoc, <- pow2_add.
      replace (52 - e + (e - 52)) with 0 by lia.
      change (2 ^ 0)%Q with 1%Q. ring.
    + assert (Ee : e = 53) by lia.
      assert (En : n = 2 ^ 53).
      { rewrite Ee, E in Hlo. rewrite pow2_inject in Hlo by lia.
        rewrite <- Zle_Qle in Hlo. lia. }
      rewrite Ee.
      assert (Em : (x * 2 ^ (52 - 53) == inject_Z (2 ^ 52))%Q)
        by (rewrite E, En; reflexivity).
      rewrite (round_half_even_integer _ _ Em). rewrite En. reflexivity.
Qed.

Lemma round53_rounding : rounding round53.
Proof.
  split.
  - apply round53_monotone.
  - apply round53_integer.
Qed.

Lemma round53_product_error (stop step : Q) :
  (0 <= step)%Q -> product_error round53 stop step.
Proof.
  intros Hs i Hi _.
  assert (Hp : (0 <= inject_Z i * step)%Q).
  { apply Qmult_le_0_compat; [ | assumption].
    replace 0%Q with (inject_Z 0) by reflexivity.
    rewrite <- Zle_Qle. assumption. }
  destruct (Qlt_le_dec 0 (inject_Z i * step)) as [Hpos | Hzero].
  - rewrite (round53_of_pos _ Hpos). apply round53_pos_error. assumption.
  - assert (E : (inject_Z i * step == 0)%Q) by lra.
    rewrite (round53_of_zero _ E). rewrite E. split; lra.
Qed.

(** [arange] is [np_arange] for exact arithmetic. *)
Lemma arange_exact (stop step : Q) :
  arange stop step = np_arange (fun x => x) stop step.
Proof. reflexivity. Qed.

Lemma exact_rounding : rounding (fun x => x).
Proof.
  split.
  - intros x y _ H. exact H.
  - intros x n _ H. exact H.
Qed.

Lemma exact_product_error (stop step : Q) :
  (0 <= step)%Q -> product_error (fun x => x) stop step.
Proof.
  intros Hs i Hi _.
  assert (Hp : (0 <= inject_Z i * step)%Q).
  { apply Qmult_le_0_compat; [ | assumption].
    replace 0%Q with (inject_Z 0) by reflexivity.
    rewrite <- Zle_Qle. assumption. }
  unfold unit_roundoff.
  set (p := (inject_Z i * step)%Q) in *.
  assert (Hu : (0 <= (1 # 9007199254740992) * p)%Q)
    by (apply Qmult_le_0_compat; [discriminate | assumption]).
  split; lra.
Qed.

Section DoubleGrid.

Variable fl : Q -> Q.
Variable searchMax searchStep : Q.

Hypothesis fl_rounds : rounding fl.
Hypothesis step_positive : (0 < searchStep)%Q.
Hypothesis max_nonnegative : (0 <= searchMax)%Q.
Hypothesis quotient_bounded : (searchMax / searchStep <= inject_Z (2 ^ 52))%Q.

#[local] Abbreviation quotient := (searchMax / searchStep)%Q.
#[local] Abbreviation points := (Qceiling (fl quotient)).

Lemma quotient_nonneg : (0 <= quotient)%Q.
Proof.
  apply Qle_shift_div_l; [assumption | ]. rewrite Qmult_0_l. assumption.
Qed.

Lemma floor_quotient_bounds : 0 <= Qfloor quotient <= 2 ^ 52.
Proof.
  split.
  - replace 0 with (Qfloor 0) by reflexivity.
    apply Qfloor_resp_le, quotient_nonneg.
  - rewrite <- (Qfloor_Z (2 ^ 52)).
    apply Qfloor_resp_le. assumption.
Qed.

Lemma fl_of_integer (n : Z) :
  0 <= n <= 2 ^ 53 -> (fl (inject_Z n) == inject_Z n)%Q.
Proof.
  intros Hn. apply (fl_integer fl fl_rounds); [assumption | reflexivity].
Qed.

(** The number of points lies between the floor of the exact quotient and
    one more. *)
Lemma points_bounds :
  Qfloor quotient <= points <= Qfloor quotient + 1.
Proof.
  pose proof floor_quotient_bounds as [Hf0 Hf1].
  split.
  - rewrite Zle_Qle.
    apply Qle_trans with (fl quotient); [ | apply Qle_ceiling].
    rewrite <- (fl_of_integer (Qfloor quotient)) by lia.
    apply (fl_monotone fl fl_rounds); [ | apply Qfloor_le].
    replace 0%Q with (inject_Z 0) by reflexivity.
    rewrite <- Zle_Qle. assumption.
  - rewrite <- (Qceiling_Z (Qfloor quotient + 1)).
    apply Qceiling_resp_le.
    rewrite <- (fl_of_integer (Qfloor quotient + 1)) by lia.
    apply (fl_monotone fl fl_rounds);
      [apply quotient_nonneg | apply Qlt_le_weak, Qlt_floor].
Qed.

Lemma points_of_integer_quotient :
  (quotient == inject_Z (Qfloor quotient))%Q -> points = Qfloor quotient.
Proof.
  intros H. pose proof floor_quotient_bounds as [Hf0 Hf1].
  rewrite (Qceiling_comp (fl quotient) (inject_Z (Qfloor quotient))).
  - apply Qceiling_Z.
  - apply (fl_integer fl fl_rounds); [lia | assumption].
Qed.

(** A grid index does not exceed the exact quotient, so the exact product
    does not exceed [searchMax]. *)
Lemma index_product_le (i : Z) :
  0 <= i < points -> (inject_Z i * searchStep <= searchMax)%Q.
Proof.
  intros [H0 Hi].
  pose proof floor_quotient_bounds as [Hf0 Hf1].
  pose proof points_bounds as [_ Hp].
  assert (Hlt : (inject_Z i < fl quotient)%Q).
  { apply Qle_lt_trans with (inject_Z (points - 1)).
    - rewrite <- Zle_Qle. lia.
    - apply Qceiling_lt. }
  assert (Hle : (inject_Z i <= quotient)%Q).
  { apply Qnot_lt_le. intros Hq.
    apply Qlt_le_weak in Hq.
    apply (fl_monotone fl fl_rounds _ _ quotient_nonneg) in Hq.
    rewrite (fl_of_integer i) in Hq by lia.
    apply (Qlt_irrefl (inject_Z i)).
    apply Qlt_le_trans with (fl quotient); assumption. }
  apply (Qmult_le_compat_r _ _ searchStep) in Hle;
    [ | apply Qlt_le_weak; assumption].
  assert (E : (quotient * searchStep == searchMax)%Q).
  { field. intros Hz. rewrite Hz in step_positive.
    apply (Qlt_irrefl 0). assumption. }
  rewrite E in Hle. assumption.
Qed.

Hypothesis products_rounded : product_error fl searchMax searchStep.

Lemma next_product_greater (i : Z) :
  0 <= i -> i + 1 < points ->
  (fl (inject_Z i * searchStep) < fl (inject_Z (i + 1) * searchStep))%Q.
Proof.
  intros H0 Hi.
  pose proof floor_quotient_bounds as [Hf0 Hf1].
  pose proof points_bounds as [_ Hp].
  destruct (products_rounded i H0) as [_ Hup];
    [apply index_product_le; lia | ].
  destruct (products_rounded (i + 1)) as [Hlow _];
    [lia | apply index_product_le; lia | ].
  apply Qle_lt_trans with ((1 + unit_roundoff) * (inject_Z i * searchStep))%Q;
    [assumption | ].
  apply Qlt_le_trans
    with ((1 - unit_roundoff) * (inject_Z (i + 1) * searchStep))%Q;
    [ | assumption].
  rewrite !Qmult_assoc. apply Qmult_lt_compat_r; [assumption | ].
  assert (Hx : (inject_Z i <= inject_Z 4503599627370495)%Q)
    by (rewrite <- Zle_Qle; lia).
  rewrite inject_Z_plus. unfold unit_roundoff.
  change (inject_Z 4503599627370495) with (4503599627370495 # 1) in Hx.
  change (inject_Z 1) with 1%Q.
  lra.
Qed.

Lemma products_increase (i j : Z) :
  0 <= i -> i < j -> j < points ->
  (fl (inject_Z i * searchStep) < fl (inject_Z j * searchStep))%Q.
Proof.
  intros H0 Hij Hj.
  apply Qle_lt_trans with (fl (inject_Z (j - 1) * searchStep)).
  - apply (fl_monotone fl fl_rounds).
    + apply Qmult_le_0_compat; [ | apply Qlt_le_weak; assumption].
      replace 0%Q with (inject_Z 0) by reflexivity.
      rewrite <- Zle_Qle. assumption.
    + apply Qmult_le_compat_r; [ | apply Qlt_le_weak; assumption].
      rewrite <- Zle_Qle. lia.
  - replace j with (j - 1 + 1) at 2 by lia.
    apply next_product_greater; lia.
Qed.

End DoubleGrid.

Lemma map_seq_nth {A : Type} (f : nat -> A) (n i : nat) (x : A) :
  nth_error (map f (seq 0 n)) i = Some x -> (i < n)%nat /\ x = f i.
Proof.
  intros H.
  assert (Hi : (i < n)%nat).
  { assert (Hs : nth_error (map f (seq 0 n)) i <> None)
      by (rewrite H; discriminate).
    apply nth_error_Some in Hs. rewrite length_map, length_seq in Hs.
    assumption. }
  rewrite nth_error_map, nth_error_seq in H.
  destruct (Nat.ltb_spec i n); [ | lia].
  simpl in H. inversion H. auto.
Qed.

Lemma np_arange_Ok (fl : Q -> Q) (stop step : Q) :
  (0 < step)%Q ->
  np_arange fl stop step =
  Ok (map (fun i => fl (inject_Z (Z.of_nat i) * step))%Q
          (seq 0 (Z.to_nat (Qceiling (fl (stop / step)%Q))))).
Proof.
  intros Hpos. unfold np_arange.
  destruct (Qeq_bool step 0) eqn:Hz; [ | reflexivity].
  apply Qeq_bool_eq in Hz. rewrite Hz in Hpos.
  exfalso. apply (Qlt_irrefl 0). assumption.
Qed.

(** C9, as the code has it.  Let [fl] round to the nearest double, let
    [searchStep > 0] and [searchMax >= 0] be doubles with a quotient of at
    most [2^52].  The grid of [np.arange(0, searchMax, searchStep)] has
    [N = ceil(fl(searchMax / searchStep))] elements, the ceiling of the
    double quotient; [N] is [floor(searchMax / searchStep)] or one more, and
    it is the floor when the quotient is an integer.  The [i]-th element is
    the double product [fl(i * searchStep)], and the grid is strictly
    increasing. *)
Theorem np_arange_grid (fl : Q -> Q) (searchMax searchStep : Q) :
  rounding fl ->
  product_error fl searchMax searchStep ->
  (0 < searchStep)%Q ->
  (0 <= searchMax)%Q ->
  (searchMax / searchStep <= inject_Z (2 ^ 52))%Q ->
  exists grid,
    np_arange fl searchMax searchStep = Ok grid /\
    Z.of_nat (List.length grid) = Qceiling (fl (searchMax / searchStep)%Q) /\
    (forall i, (i < List.length grid)%nat ->
               nth_error grid i =
               Some (fl (inject_Z (Z.of_nat i) * searchStep)%Q)) /\
    (forall i j x y, (i < j)%nat ->
                     nth_error grid i = Some x -> nth_error grid j = Some y ->
                     (x < y)%Q) /\
    Qfloor (searchMax / searchStep) <= Z.of_nat (List.length grid)
      <= Qfloor (searchMax / searchStep) + 1 /\
    ((searchMax / searchStep == inject_Z (Qfloor (searchMax / searchStep)))%Q ->
     Z.of_nat (List.length grid) = Qfloor (searchMax / searchStep)).
Proof.
  intros Hfl Herr Hpos Hmax Hq.
  pose proof (floor_quotient_bounds searchMax searchStep Hpos Hmax Hq)
    as [Hf0 Hf1].
  pose proof (points_bounds fl searchMax searchStep Hfl Hpos Hmax Hq)
    as [Hp0 Hp1].
  eexists. split; [apply np_arange_Ok; assumption | ].
  rewrite length_map, length_seq.
  assert (Hlen : Z.of_nat (Z.to_nat (Qceiling (fl (searchMax / searchStep)%Q)))
                 = Qceiling (fl (searchMax / searchStep)%Q))
    by (apply Z2Nat.id; lia).
  rewrite Hlen.
  split; [reflexivity | ]. split; [ | split; [ | split]].
  - intros i Hi. rewrite nth_error_map, nth_error_seq.
    destruct (Nat.ltb_spec i (Z.to_nat (Qceiling (fl (searchMax / searchStep)%Q))));
      [reflexivity | lia].
  - intros i j x y Hij Hx Hy.
    apply map_seq_nth in Hx. apply map_seq_nth in Hy.
    destruct Hx as [Hi Hx], Hy as [Hj Hy]. subst x y.
    apply (products_increase fl searchMax searchStep Hfl Hpos Hmax Hq Herr);
      lia.
  - split; assumption.
  - apply (points_of_integer_quotient fl searchMax searchStep Hfl Hpos Hmax Hq).
Qed.

(** X1.  With the same rounding, every value of the grid is at least 0 and at
    most [searchMax]; it is the double product of an index that does not
    exceed the exact quotient. *)
Theorem np_arange_values_bounded (fl : Q -> Q) (searchMax searchStep : Q)
        (grid : list Q) (h : Q) :
  rounding fl ->
  (fl searchMax == searchMax)%Q ->
  (0 < searchStep)%Q ->
  (0 <= searchMax)%Q ->
  (searchMax / searchStep <= inject_Z (2 ^ 52))%Q ->
  np_arange fl searchMax searchStep = Ok grid ->
  In h grid ->
  (0 <= h)%Q /\ (h <= searchMax)%Q.
Proof.
  intros Hfl Hmaxd Hpos Hmax Hq Hg Hin.
  rewrite np_arange_Ok in Hg by assumption. inversion Hg; subst grid.
  apply In_nth_error in Hin. destruct Hin as [i Hi].
  apply map_seq_nth in Hi. destruct Hi as [Hlt Hh]. subst h.
  assert (Hprod : (inject_Z (Z.of_nat i) * searchStep <= searchMax)%Q)
    by (apply (index_product_le fl searchMax searchStep Hfl Hpos Hmax Hq);
        lia).
  split.
  - assert (H0 : (fl 0 == 0)%Q)
      by (apply (fl_integer fl Hfl 0 0); [lia | reflexivity]).
    assert (Hp : (0 <= inject_Z (Z.of_nat i) * searchStep)%Q).
    { apply Qmult_le_0_compat; [ | apply Qlt_le_weak; assumption].
      replace 0%Q with (inject_Z 0) by reflexivity.
      rewrite <- Zle_Qle. lia. }
    rewrite <- H0. apply (fl_monotone fl Hfl); [apply Qle_refl | assumption].
  - rewrite <- Hmaxd. apply (fl_monotone fl Hfl); [ | assumption].
    apply Qmult_le_0_compat; [ | apply Qlt_le_weak; assumption].
    replace 0%Q with (inject_Z 0) by reflexivity.
    rewrite <- Zle_Qle. lia.
Qed.

(** The notebook's range in doubles, [searchMax = 10] and [searchStep] the
    double nearest to 0.01: the exact quotient is below 1000, the double
    quotient is 1000, and the grid has a thousand points. *)
Lemma np_arange_grid_witness :
  exists grid,
    np_arange round53 10 (round53 0.01) = Ok grid /\
    Z.of_nat (List.length grid) = 1000 /\
    Qfloor (10 / round53 0.01) = 999.
Proof.
  destruct (np_arange_grid round53 10 (round53 0.01) round53_rounding
              (round53_product_error 10 (round53 0.01)
                 ltac:(vm_compute; discriminate))
              ltac:(vm_compute; reflexivity) ltac:(discriminate)
              ltac:(vm_compute; discriminate))
    as (grid & Hg & Hlen & _).
  exists grid. split; [exact Hg | ]. split.
  - rewrite Hlen. vm_compute. reflexivity.
  - vm_compute. reflexivity.
Defined.

(** The doubles nearest to 0.07 and 0.01: the last grid point is the double
    product [7 * 0.01], which is [searchMax] itself. *)
Lemma np_arange_values_bounded_witness :
  (0 <= round53 (inject_Z (Z.of_nat 7) * round53 0.01))%Q /\
  (round53 (inject_Z (Z.of_nat 7) * round53 0.01) <= round53 0.07)%Q.
Proof.
  apply (np_arange_values_bounded round53 (round53 0.07) (round53 0.01) _
           (round53 (inject_Z (Z.of_nat 7) * round53 0.01))
           round53_rounding
           ltac:(vm_compute; reflexivity)
           ltac:(vm_compute; reflexivity)
           ltac:(vm_compute; discriminate)
           ltac:(vm_compute; discriminate)
           (np_arange_Ok round53 (round53 0.07) (round53 0.01)
              ltac:(vm_compute; reflexivity))).
  refine (in_map (fun i => round53 (inject_Z (Z.of_nat i) * round53 0.01))
                 _ 7%nat _).
  assert (E : Z.to_nat (Qceiling (round53 (round53 0.07 / round53 0.01)%Q))
              = 8%nat) by (vm_compute; reflexivity).
  rewrite E. apply in_seq. lia.
Defined.

(** Grids in doubles.  For 0.07 and 0.01 the double quotient is above 7, so
    there are 8 points, and the last, [7 * 0.01], equals 0.07.  For 1 and
    the double nearest to 1/3 the exact quotient is above 3 and the double
    quotient is 3: three points.  For 1 and 0.3 there are 4 points, one more
    than the floor of the quotient. *)
Lemma double_grid_examples :
  Qceiling (round53 (round53 0.07 / round53 0.01)) = 8 /\
  Qfloor (round53 0.07 / round53 0.01) = 7 /\
  (round53 (7 * round53 0.01) == round53 0.07)%Q /\
  Qceiling (round53 (1 / round53 (1 # 3))) = 3 /\
  Qceiling (1 / round53 (1 # 3)) = 4 /\
  Qceiling (round53 (1 / round53 0.3)) = 4 /\
  Qfloor (1 / round53 0.3) = 3.
Proof.
  do 6 (split; [vm_compute; reflexivity | ]).
  vm_compute. reflexivity.
Qed.

(** ** binary_search *)

Section SearchFacts.

Variable kde : list Q -> Q -> result line.
Variable argrelmax : list Q -> list Z.

Lemma search_inv_final (data : list Q) (searchMax searchStep : Q) (k : Z)
      (s : bs_state) :
  binary_search_state kde argrelmax data searchMax searchStep k = Ok s ->
  exists grid,
    arange searchMax searchStep = Ok grid /\
    search_inv kde argrelmax data grid k s /\
    guard s = false.
Proof.
  unfold binary_search_state. intros H.
  destruct (arange searchMax searchStep) as [grid | e] eqn:Hg;
    simpl in H; [ | discriminate].
  exists grid. split; [reflexivity | ].
  eapply while_loop_rule; [ | | exact H].
  - intros s0 s1 Hgd Hinv Hb. eapply search_inv_kept; eauto.
  - unfold search_inv, in_grid. simpl.
    repeat split; [lia | lia | discriminate].
Qed.

(** C2, as the code has it.  When the loop ends without a match, the index
    range is exhausted ([end < start]) and [binary_search] returns the
    number 12345 that [found_h] was initialised with. *)
Theorem not_found_returns_placeholder
        (data : list Q) (searchMax searchStep : Q) (k : Z) (s : bs_state) :
  binary_search_state kde argrelmax data searchMax searchStep k = Ok s ->
  found s = false ->
  end_ s < start s /\
  found_h s = placeholder /\
  binary_search kde argrelmax data searchMax searchStep k = Ok placeholder.
Proof.
  intros H Hf.
  destruct (search_inv_final _ _ _ _ _ H) as (grid & _ & Hinv & Hg).
  destruct Hinv as (_ & Hph & _).
  repeat split.
  - destruct (Z_lt_le_dec (end_ s) (start s)) as [Hlt | Hle];
      [assumption | ].
    assert (Hg' : guard s = true) by (apply guard_true; auto).
    rewrite Hg in Hg'. discriminate.
  - apply Hph. assumption.
  - unfold binary_search. rewrite H. simpl. rewrite (Hph Hf). reflexivity.
Qed.



End SearchFacts.

(** ** bootstrap *)

Section BootstrapFacts.

Variable kde : list Q -> Q -> result line.
Variable argrelmax : list Q -> list Z.
Variable Rng : Type.
Variable resample : list Q -> Q -> Rng -> result (list Q) * Rng.

#[local] Abbreviation for_loop :=
  (bootstrap_loop kde argrelmax Rng resample).
#[local] Abbreviation critical :=
  (find_critical_value kde argrelmax Rng resample).

Lemma bootstrap_loop_length (data : list Q) (searchMax searchStep : Q)
      (k : Z) (idxs : list Z) :
  forall hlist w hlist' w',
    for_loop data searchMax searchStep k idxs hlist w = (Ok hlist', w') ->
    List.length hlist' = (List.length hlist + List.length idxs)%nat.
Proof.
  induction idxs as [ | i rest IH]; intros hlist w hlist' w' H; simpl in H.
  - inversion H; subst. simpl. lia.
  - destruct (critical chondrites 10 0.01 2 (print Rng i w)) as [[h | e] w2];
      [ | discriminate].
    apply IH in H. rewrite H, length_app. simpl. lia.
Qed.

Lemma py_range_length (n : Z) : List.length (py_range 0 n) = Z.to_nat n.
Proof.
  unfold py_range. rewrite length_map, length_seq, Z.sub_0_r. reflexivity.
Qed.

Lemma load_modesList :
  load_global notebook_globals "modesList" = Raise (NameError "modesList").
Proof. reflexivity. Qed.

(** C3, on the code.  In the notebook's namespace a call of [bootstrap]
    never returns: it ends in an exception for every input.  When all
    iterations succeed, the loop has collected one value per iteration,
    [num_simulations] in all, and the [return] statement then raises
    [NameError] on the unbound name [modesList]. *)
Theorem bootstrap_never_returns
        (data : list Q) (searchMax searchStep : Q) (k num_simulations : Z)
        (w : World Rng) :
  (exists e,
      fst (bootstrap kde argrelmax Rng resample notebook_globals
                     data searchMax searchStep k num_simulations w)
      = Raise e) /\
  (forall hlist w',
      for_loop data searchMax searchStep k
               (py_range 0 num_simulations) [] w = (Ok hlist, w') ->
      List.length hlist = Z.to_nat num_simulations /\
      bootstrap kde argrelmax Rng resample notebook_globals
                data searchMax searchStep k num_simulations w
      = (Raise (NameError "modesList"), w')).
Proof.
  unfold bootstrap.
  destruct (for_loop data searchMax searchStep k
                     (py_range 0 num_simulations) [] w)
    as [[hlist | e] w1] eqn:Hloop.
  - split.
    + exists (NameError "modesList"). reflexivity.
    + intros hlist' w' H. inversion H; subst.
      split; [ | reflexivity].
      apply bootstrap_loop_length in Hloop.
      rewrite Hloop, py_range_length. reflexivity.
  - split.
    + exists e. reflexivity.
    + intros hlist' w' H. discriminate.
Qed.

(** The loop of [bootstrap] does not read [data], [searchMax],
    [searchStep] or [k]. *)
Lemma bootstrap_loop_fixed_arguments
      (data data' : list Q) (searchMax searchStep searchMax' searchStep' : Q)
      (k k' : Z) (idxs : list Z) :
  forall hlist w,
    for_loop data searchMax searchStep k idxs hlist w =
    for_loop data' searchMax' searchStep' k' idxs hlist w.
Proof.
  induction idxs as [ | i rest IH]; intros hlist w; simpl.
  - reflexivity.
  - destruct (critical chondrites 10 0.01 2 (print Rng i w)) as [[h | e] w2];
      [apply IH | reflexivity].
Qed.

End BootstrapFacts.

(** * Runs on concrete inputs

    The stand-ins [cluster_kde], [strict_maxima] and [same_sample] take the
    place of the libraries. *)

(** C1, on the code.  Sample [0, 5], grid [0, 1], [k = 2].  The first probe is
    index 0, where the count is 2.  [searchList[midpoint-1]] is
    [searchList[-1]], the last grid point 1, whose count is 2 as well; the
    iteration sets [end = -1], the loop ends and 12345 is returned: grid[0]
    is not accepted. *)
Theorem grid_start_compared_with_grid_end :
  arange 2 1 = Ok [0; 1]%Q /\
  midpoint_of (mk_bs 0 1 false placeholder) = 0 /\
  mode_count cluster_kde strict_maxima [0; 5]%Q 0 = Ok 2 /\
  py_index [0; 1]%Q (0 - 1) = Ok 1%Q /\
  mode_count cluster_kde strict_maxima [0; 5]%Q 1 = Ok 2 /\
  body cluster_kde strict_maxima [0; 5]%Q [0; 1]%Q 2
       (mk_bs 0 1 false placeholder) = Ok (mk_bs 0 (-1) false placeholder) /\
  binary_search_state cluster_kde strict_maxima [0; 5]%Q 2 1 2 =
    Ok (mk_bs 0 (-1) false placeholder) /\
  binary_search cluster_kde strict_maxima [0; 5]%Q 2 1 2 = Ok 12345%Q.
Proof. repeat split; vm_compute; reflexivity. Qed.

(** C2 fails as stated.  Sample [0, 12345, 40000], grid [0, 12345, 24690].
    With [k = 1] the range is exhausted without a match and the result is
    12345; with [k = 2] the grid point 12345 is found and the result is
    12345 too. *)
Lemma placeholder_equals_found_bandwidth :
  arange 30000 12345 = Ok [0; 12345; 24690]%Q /\
  binary_search_state cluster_kde strict_maxima [0; 12345; 40000]%Q
                      30000 12345 1 = Ok (mk_bs 3 2 false 12345) /\
  binary_search cluster_kde strict_maxima [0; 12345; 40000]%Q
                30000 12345 1 = Ok 12345%Q /\
  binary_search_state cluster_kde strict_maxima [0; 12345; 40000]%Q
                      30000 12345 2 = Ok (mk_bs 0 2 true 12345) /\
  binary_search cluster_kde strict_maxima [0; 12345; 40000]%Q
                30000 12345 2 = Ok 12345%Q /\
  mode_count cluster_kde strict_maxima [0; 12345; 40000]%Q 12345 = Ok 2 /\
  mode_count cluster_kde strict_maxima [0; 12345; 40000]%Q 0 = Ok 3.
Proof. repeat split; vm_compute; reflexivity. Qed.

(** The exhausted search of the sample above, through the theorem. *)
Lemma not_found_witness :
  binary_search_state cluster_kde strict_maxima [0; 12345; 40000]%Q
                      30000 12345 1 = Ok (mk_bs 3 2 false 12345) /\
  found (mk_bs 3 2 false 12345) = false /\
  binary_search cluster_kde strict_maxima [0; 12345; 40000]%Q
                30000 12345 1 = Ok placeholder.
Proof.
  assert (H : binary_search_state cluster_kde strict_maxima
                [0; 12345; 40000]%Q 30000 12345 1
              = Ok (mk_bs 3 2 false 12345))
    by (vm_compute; reflexivity).
  split; [exact H | ]. split; [reflexivity | ].
  apply (not_found_returns_placeholder
           cluster_kde strict_maxima [0; 12345; 40000]%Q 30000 12345 1
           (mk_bs 3 2 false 12345) H eq_refl).
Defined.

(** C4, on the code.  [bootstrap] called on the sample [1, 5] with
    [searchMax = 10], [searchStep = 1], [k = 1] and three simulations: one
    run of [find_critical_value] on these arguments gives 4, but every
    iteration of the loop records 1.79, the value for [chondrites] with
    [10, 0.01, 2]. *)
Theorem bootstrap_runs_on_chondrites :
  fst (find_critical_value cluster_kde strict_maxima nat same_sample
         [1; 5]%Q 10 1 1 (mk_world nat 0%nat [])) = Ok 4%Q /\
  fst (find_critical_value cluster_kde strict_maxima nat same_sample
         chondrites 10 0.01 2 (mk_world nat 0%nat [])) = Ok 1.79%Q /\
  fst (bootstrap_loop cluster_kde strict_maxima nat same_sample
         [1; 5]%Q 10 1 1 (py_range 0 3) [] (mk_world nat 0%nat []))
  = Ok [1.79; 1.79; 1.79]%Q.
Proof. repeat split; vm_compute; reflexivity. Qed.




(** C8 fails as stated.  The current figure holds one line, a plot of the
    caller's; after [find_maxima] on the sample [0, 1] at bandwidth 1 the
    figure holds the density curve instead and the caller's line is gone:
    the call writes shared state. *)
Lemma find_maxima_overwrites_figure :
  find_maxima_fig cluster_kde strict_maxima [([5], [7])]%Q [0; 1]%Q 1 =
  (Ok (1, [1]%Q), [([0; 1; 2], [0; 1; 0])]%Q) /\
  snd (find_maxima_fig cluster_kde strict_maxima [([5], [7])]%Q [0; 1]%Q 1)
  <> [([5], [7])]%Q.
Proof.
  split; [vm_compute; reflexivity | ].
  vm_compute. discriminate.
Qed.

(** C7 fails as stated.  With the stand-in density estimate, [find_maxima]
    returns a report for the bandwidths 0 and -1. *)
Lemma find_maxima_accepts_nonpositive_bandwidth :
  (0 <= 0)%Q /\ (-1 <= 0)%Q /\
  find_maxima cluster_kde strict_maxima [0; 1]%Q 0 = Ok (2, [1; 3]%Q) /\
  find_maxima cluster_kde strict_maxima [0; 1]%Q (-1) = Ok (2, [1; 3]%Q).
Proof. repeat split; vm_compute; try reflexivity; discriminate. Qed.

(** C9 fails as stated.  [arange 1 0.3] has four elements, the last one
    [3 * 0.3]; [floor(1 / 0.3)] is 3. *)
Lemma grid_longer_than_floor :
  (0 < 1)%Q /\ (0 < 0.3)%Q /\ (1 <= 1 / 0.3)%Q /\
  arange 1 0.3 = Ok [0.0; 0.3; 0.6; 0.9]%Q /\
  Qfloor (1 / 0.3) = 3 /\
  0.9%Q = (inject_Z 3 * 0.3)%Q.
Proof. repeat split; vm_compute; try reflexivity; discriminate. Qed.

(** Sample [1, 4], grid [0 .. 9], [k = 1]: the probe at index 4 and the grid
    point before it both have one mode, and [end] becomes 3. *)
Lemma step_policy_witness :
  body cluster_kde strict_maxima [1; 4]%Q [0; 1; 2; 3; 4; 5; 6; 7; 8; 9]%Q 1
       (mk_bs 0 9 false placeholder) = Ok (mk_bs 0 3 false placeholder).
Proof.
  destruct (binary_search_step_policy
              cluster_kde strict_maxima [1; 4]%Q
              [0; 1; 2; 3; 4; 5; 6; 7; 8; 9]%Q 1
              (mk_bs 0 9 false placeholder))
    as (_ & prop_h & Hn & Hpol & _).
  - unfold in_grid. simpl. lia.
  - reflexivity.
  - vm_compute in Hn. inversion Hn; subst prop_h.
    destruct (Hpol 1) as (_ & _ & Heq); [vm_compute; reflexivity | ].
    apply (Heq eq_refl 3%Q); vm_compute; reflexivity.
Defined.

(** * Further properties of the notebook's functions *)

(** ** Indexing and the grid *)

Lemma py_index_intro {A : Type} (l : list A) (i : Z) (a : A) :
  (0 <= i /\ nth_error l (Z.to_nat i) = Some a) \/
  (i < 0 /\ 0 <= i + Z.of_nat (List.length l) /\
   nth_error l (Z.to_nat (i + Z.of_nat (List.length l))) = Some a) ->
  py_index l i = Ok a.
Proof.
  unfold py_index. set (n := Z.of_nat (List.length l)).
  intros [[Hi Hn] | (Hi & Hj & Hn)].
  - assert (Hlt : (Z.to_nat i < List.length l)%nat)
      by (apply nth_error_Some; rewrite Hn; discriminate).
    replace (i <? 0) with false by (symmetry; apply Z.ltb_ge; lia).
    replace ((0 <=? i) && (i <? n)) with true
      by (symmetry; apply andb_true_intro; split;
          [apply Z.leb_le | apply Z.ltb_lt]; lia).
    rewrite Hn. reflexivity.
  - replace (i <? 0) with true by (symmetry; apply Z.ltb_lt; lia).
    replace ((0 <=? i + n) && (i + n <? n)) with true
      by (symmetry; apply andb_true_intro; split;
          [apply Z.leb_le | apply Z.ltb_lt]; lia).
    rewrite Hn. reflexivity.
Qed.

Lemma py_index_In {A : Type} (l : list A) (i : Z) (a : A) :
  py_index l i = Ok a -> In a l.
Proof.
  intros H. apply py_index_Ok in H.
  destruct H as [[_ H] | [_ H]]; apply nth_error_In in H; assumption.
Qed.

(** ** The report of find_maxima *)

Section ReportFacts.

Variable kde : list Q -> Q -> result line.
Variable argrelmax : list Q -> list Z.

Lemma index_all_spec (xs : list Q) (idxs : list Z) :
  forall r, index_all xs idxs = Ok r ->
            List.length r = List.length idxs /\
            (forall x, In x r -> In x xs).
Proof.
  induction idxs as [ | i rest IH]; intros r H; simpl in H.
  - inversion H; subst. split; [reflexivity | intros x []].
  - destruct (py_index xs i) as [x0 | ] eqn:Hx; simpl in H; [ | discriminate].
    destruct (index_all xs rest) as [r0 | ]; simpl in H; [ | discriminate].
    inversion H; subst r. destruct (IH r0 eq_refl) as [Hlen Hin].
    split; [simpl; rewrite Hlen; reflexivity | ].
    intros x [E | Hx0]; [subst x; eapply py_index_In; eauto | auto].
Qed.

Lemma find_maxima_Ok (data : list Q) (h : Q) (c : Z) (locs : list Q) :
  find_maxima kde argrelmax data h = Ok (c, locs) ->
  exists x_vals y_vals,
    kde data h = Ok (x_vals, y_vals) /\
    c = Z.of_nat (List.length (argrelmax y_vals)) /\
    index_all x_vals (argrelmax y_vals) = Ok locs.
Proof.
  unfold find_maxima. rewrite find_maxima_fig_result.
  destruct (kde data h) as [[x_vals y_vals] | e]; [ | discriminate].
  destruct (index_all x_vals (argrelmax y_vals)) as [r | e] eqn:Hi;
    simpl; [ | discriminate].
  intros H. inversion H; subst. exists x_vals, y_vals. auto.
Qed.

Lemma mode_count_nonneg (data : list Q) (h : Q) (c : Z) :
  mode_count kde argrelmax data h = Ok c -> 0 <= c.
Proof.
  unfold mode_count.
  destruct (find_maxima kde argrelmax data h) as [[c0 locs] | e] eqn:Hf;
    simpl; [ | discriminate].
  intros H. inversion H; subst c.
  apply find_maxima_Ok in Hf. destruct Hf as (xs & ys & _ & Hc & _). lia.
Qed.

(** X2.  The two parts of a report agree: the count is the number of locations
    returned, it is the number of indices [argrelmax] gave for the curve's
    [y_vals], and every location is one of the curve's [x_vals]. *)
Theorem find_maxima_report_consistent
        (data : list Q) (h : Q) (c : Z) (locs : list Q) :
  find_maxima kde argrelmax data h = Ok (c, locs) ->
  c = Z.of_nat (List.length locs) /\
  exists x_vals y_vals,
    kde data h = Ok (x_vals, y_vals) /\
    c = Z.of_nat (List.length (argrelmax y_vals)) /\
    (forall x, In x locs -> In x x_vals).
Proof.
  intros H. apply find_maxima_Ok in H.
  destruct H as (xs & ys & Hk & Hc & Hi).
  apply index_all_spec in Hi. destruct Hi as [Hlen Hin].
  split; [rewrite Hlen; assumption | ].
  exists xs, ys. auto.
Qed.

End ReportFacts.

(** Sample [0, 1] at bandwidth 0 with the stand-ins: two modes, at 1 and 3. *)
Lemma find_maxima_report_witness :
  find_maxima cluster_kde strict_maxima [0; 1]%Q 0 = Ok (2, [1; 3]%Q) /\
  2 = Z.of_nat (List.length [1; 3]%Q).
Proof.
  assert (H : find_maxima cluster_kde strict_maxima [0; 1]%Q 0
              = Ok (2, [1; 3]%Q)) by (vm_compute; reflexivity).
  split; [exact H | ].
  apply (find_maxima_report_consistent
           cluster_kde strict_maxima [0; 1]%Q 0 2 [1; 3]%Q H).
Defined.

(** ** Running the loop of binary_search *)

Section LoopRules.

Variable kde : list Q -> Q -> result line.
Variable argrelmax : list Q -> list Z.
Variable data searchList : list Q.
Variable k : Z.

#[local] Abbreviation count := (mode_count kde argrelmax data).
#[local] Abbreviation step := (body kde argrelmax data searchList k).
#[local] Abbreviation loop := (while_loop kde argrelmax data searchList k).

(** A property every iteration can carry forward without raising holds when
    the loop ends, and the loop does end without raising. *)
Lemma while_loop_total_rule (P : bs_state -> Prop) :
  (forall s, guard s = true -> P s -> exists s', step s = Ok s' /\ P s') ->
  forall s, P s -> exists s', loop s = Ok s' /\ P s' /\ guard s' = false.
Proof.
  intros Hstep s. funelim (loop s); intros HP.
  - exists s. auto.
  - destruct (Hstep s Hg HP) as (s2 & Hs2 & HP2).
    rewrite Hb in Hs2. inversion Hs2; subst s2.
    apply (H P Hstep HP2).
  - match goal with
    | Hg' : guard s = true, Hb' : body _ _ _ _ _ s = Raise _ |- _ =>
        destruct (Hstep s Hg' HP) as (s2 & Hs2 & _);
        rewrite Hb' in Hs2; discriminate
    end.
Qed.

(** An exception of the loop is the exception of one of its iterations. *)
Lemma while_loop_raise_rule (P : bs_state -> Prop) :
  (forall s s', guard s = true -> P s -> step s = Ok s' -> P s') ->
  forall s e, P s -> loop s = Raise e ->
              exists s0, P s0 /\ guard s0 = true /\ step s0 = Raise e.
Proof.
  intros Hstep s. funelim (loop s); intros e0 HP Hres.
  - discriminate.
  - eapply H; eauto.
  - match goal with
    | Hg' : guard s = true, Hb' : body _ _ _ _ _ s = Raise _ |- _ =>
        exists s; inversion Hres; subst; auto
    end.
Qed.

(** Inside the grid both reads of [searchList] succeed: an iteration raises
    only what [find_maxima] raised at a grid point. *)
Lemma body_raise (s : bs_state) (e : exn) :
  in_grid searchList s -> guard s = true -> step s = Raise e ->
  exists h, In h searchList /\ count h = Raise e.
Proof.
  intros [H0 HN] Hg Hb. apply guard_true in Hg. destruct Hg as [Hle Hf].
  pose proof (midpoint_bounds s Hle) as Hm.
  destruct (py_index_nonneg searchList (midpoint_of s)) as (p & Hn & Hp);
    [lia | ].
  assert (Hq : exists q, py_index searchList (midpoint_of s - 1) = Ok q).
  { destruct (Z.eq_dec (midpoint_of s) 0) as [E | NE].
    - destruct (py_index_nonneg searchList
                  (Z.of_nat (List.length searchList) - 1)) as (q & Hnq & _);
        [lia | ].
      exists q. apply py_index_intro. right. rewrite E.
      replace (0 - 1 + Z.of_nat (List.length searchList))
        with (Z.of_nat (List.length searchList) - 1) by lia.
      repeat split; try lia. assumption.
    - destruct (py_index_nonneg searchList (midpoint_of s - 1))
        as (q & _ & Hq); [lia | ].
      exists q. assumption. }
  destruct Hq as [q Hq].
  unfold body in Hb. rewrite Hp in Hb. simpl in Hb.
  destruct (count p) as [c | e1] eqn:Hc; simpl in Hb.
  - destruct (c =? k).
    + rewrite Hq in Hb. simpl in Hb.
      destruct (count q) as [c' | e2] eqn:Hc'; simpl in Hb.
      * destruct (c' =? k); discriminate.
      * inversion Hb; subst e2. exists q. split; [ | assumption].
        eapply py_index_In; eauto.
    + destruct (c >? k); [discriminate | ].
      destruct (c <? k); discriminate.
  - inversion Hb; subst e1. exists p. split; [ | assumption].
    eapply py_index_In; eauto.
Qed.

End LoopRules.

(** ** What binary_search returns and raises *)

Section SearchOutcomes.

Variable kde : list Q -> Q -> result line.
Variable argrelmax : list Q -> list Z.

(** X3.  An exception of [binary_search] is the exception of [np.arange] or one
    that [find_maxima] raised at a grid point: the search never reads
    [searchList] outside its bounds. *)
Theorem binary_search_raise_origin
        (data : list Q) (searchMax searchStep : Q) (k : Z) (e : exn) :
  binary_search kde argrelmax data searchMax searchStep k = Raise e ->
  arange searchMax searchStep = Raise e \/
  exists grid h,
    arange searchMax searchStep = Ok grid /\
    In h grid /\
    mode_count kde argrelmax data h = Raise e.
Proof.
  unfold binary_search, binary_search_state. intros H.
  destruct (arange searchMax searchStep) as [grid | e0] eqn:Hg; simpl in H.
  - right.
    destruct (while_loop kde argrelmax data grid k
                (mk_bs 0 (Z.of_nat (List.length grid) - 1) false placeholder))
      as [s | e1] eqn:Hl; simpl in H; [discriminate | ].
    inversion H; subst e1.
    assert (Hinit : in_grid grid (mk_bs 0 (Z.of_nat (List.length grid) - 1)
                                        false placeholder))
      by (unfold in_grid; simpl; lia).
    destruct (while_loop_raise_rule kde argrelmax data grid k
                (in_grid grid)
                (fun s0 s1 Hgd Hin Hb =>
                   in_grid_kept kde argrelmax data grid k s0 s1 Hgd Hin Hb)
                _ e Hinit Hl)
      as (s0 & Hin & Hgd & Hb).
    destruct (body_raise kde argrelmax data grid k s0 e Hin Hgd Hb)
      as (h & Hh & Hc).
    exists grid, h. auto.
  - left. inversion H. reflexivity.
Qed.

(** The final state of a search in which no grid point has [k] modes. *)
Lemma no_match_state (data : list Q) (grid : list Q) (k : Z) :
  (forall h, In h grid ->
             exists c, mode_count kde argrelmax data h = Ok c /\ c <> k) ->
  exists s,
    while_loop kde argrelmax data grid k
      (mk_bs 0 (Z.of_nat (List.length grid) - 1) false placeholder) = Ok s /\
    found s = false /\ found_h s = placeholder /\ start s = end_ s + 1.
Proof.
  intros Hno.
  destruct (while_loop_total_rule kde argrelmax data grid k
              (fun s => in_grid grid s /\ found s = false /\
                        found_h s = placeholder /\ start s <= end_ s + 1))
    with (s := mk_bs 0 (Z.of_nat (List.length grid) - 1) false placeholder)
    as (s & Hl & (Hin & Hf & Hph & Hse) & Hg).
  - intros s Hg (Hin & Hf & Hph & Hse).
    destruct (body kde argrelmax data grid k s) as [s' | e] eqn:Hb.
    + exists s'. split; [reflexivity | ].
      pose proof (in_grid_kept _ _ _ _ _ _ _ Hg Hin Hb) as Hin'.
      split; [assumption | ].
      pose proof Hg as Hg'. apply guard_true in Hg'. destruct Hg' as [Hle _].
      pose proof (midpoint_bounds s Hle) as Hm.
      destruct (body_iteration _ _ _ _ _ _ _ Hb)
        as [p q Hp Hc Hq Hc' E | p q c' Hp Hc Hq Hc' Hne E
            | p c Hp Hc Hgt E | p c Hp Hc Hlt E]; subst s'; simpl;
        try (repeat split; auto; lia).
      apply py_index_In in Hp. destruct (Hno p Hp) as (c & Hc0 & Hne0).
      rewrite Hc in Hc0. inversion Hc0. congruence.
    + destruct (body_raise _ _ _ _ _ _ _ Hin Hg Hb) as (h & Hh & Hc).
      destruct (Hno h Hh) as (c & Hc0 & _). rewrite Hc in Hc0. discriminate.
  - unfold in_grid. simpl. repeat split; lia.
  - exists s. repeat split; auto.
    destruct (Z_le_gt_dec (start s) (end_ s)) as [Hle | Hgt]; [ | lia].
    assert (Hg' : guard s = true) by (apply guard_true; auto).
    rewrite Hg in Hg'. discriminate.
Qed.

(** X4.  When [find_maxima] reports a count other than [k] at every grid point,
    [binary_search] returns the placeholder 12345, and the index range it
    ends with is empty: [start = end + 1]. *)
Theorem binary_search_no_match
        (data : list Q) (searchMax searchStep : Q) (k : Z) (grid : list Q) :
  arange searchMax searchStep = Ok grid ->
  (forall h, In h grid ->
             exists c, mode_count kde argrelmax data h = Ok c /\ c <> k) ->
  binary_search kde argrelmax data searchMax searchStep k = Ok placeholder /\
  exists s,
    binary_search_state kde argrelmax data searchMax searchStep k = Ok s /\
    found s = false /\ start s = end_ s + 1.
Proof.
  intros Hg Hno.
  destruct (no_match_state data grid k Hno) as (s & Hl & Hf & Hph & Hse).
  unfold binary_search, binary_search_state. rewrite Hg. simpl. rewrite Hl.
  simpl. rewrite Hph. split; [reflexivity | ]. exists s. auto.
Qed.

(** X5.  An empty grid: for a positive step and [searchMax <= 0] the search
    returns the placeholder without one call of [find_maxima], whatever the
    sample, [k] and the collaborators are. *)
Theorem binary_search_empty_grid
        (data : list Q) (searchMax searchStep : Q) (k : Z) :
  (0 < searchStep)%Q -> (searchMax <= 0)%Q ->
  arange searchMax searchStep = Ok [] /\
  binary_search kde argrelmax data searchMax searchStep k = Ok placeholder.
Proof.
  intros Hpos Hmax.
  assert (Hlen : arange_len searchMax searchStep = 0%nat).
  { unfold arange_len.
    assert (Hr : (searchMax / searchStep <= 0)%Q).
    { apply Qle_shift_div_r; [assumption | ].
      rewrite Qmult_0_l. assumption. }
    apply Qceiling_resp_le in Hr.
    replace (Qceiling 0) with 0 in Hr by reflexivity. lia. }
  assert (Hg : arange searchMax searchStep = Ok []).
  { rewrite arange_Ok by assumption. rewrite Hlen. reflexivity. }
  split; [assumption | ].
  unfold binary_search, binary_search_state. rewrite Hg. simpl.
  rewrite while_loop_eq. reflexivity.
Qed.

(** What a returned value can be. *)
Lemma binary_search_result
      (data : list Q) (searchMax searchStep : Q) (k : Z) (h : Q) :
  binary_search kde argrelmax data searchMax searchStep k = Ok h ->
  h = placeholder \/
  exists mid,
    0 <= mid < Z.of_nat (arange_len searchMax searchStep) /\
    h = (inject_Z mid * searchStep)%Q /\
    mode_count kde argrelmax data h = Ok k.
Proof.
  unfold binary_search. intros H.
  destruct (binary_search_state kde argrelmax data searchMax searchStep k)
    as [s | e] eqn:Hs; simpl in H; [ | discriminate].
  inversion H; subst h.
  destruct (search_inv_final _ _ _ _ _ _ _ Hs) as (grid & Hg & Hinv & _).
  destruct Hinv as (_ & Hph & Hacc).
  destruct (found s) eqn:Hf; [right | left; auto].
  destruct (Hacc eq_refl) as (mid & q & c' & Hr & Hn & Hc & _).
  apply arange_inv in Hg. subst grid.
  rewrite length_map, length_seq in Hr.
  apply grid_nth_inv in Hn. destruct Hn as [_ Hn].
  rewrite Z2Nat.id in Hn by lia.
  exists mid. auto.
Qed.

(** X6.  A negative [k] is never matched, since a count is a length: whatever
    [binary_search] returns for [k < 0] is the placeholder. *)
Theorem binary_search_negative_k
        (data : list Q) (searchMax searchStep : Q) (k : Z) (h : Q) :
  k < 0 ->
  binary_search kde argrelmax data searchMax searchStep k = Ok h ->
  h = placeholder.
Proof.
  intros Hk H. apply binary_search_result in H.
  destruct H as [E | (mid & _ & _ & Hc)]; [assumption | ].
  apply mode_count_nonneg in Hc. lia.
Qed.

End SearchOutcomes.

(** With a density estimate that refuses the bandwidth 0, the search on the
    grid [0, 1] raises at its first probe, the grid point 0. *)
Lemma binary_search_raise_witness :
  binary_search positive_kde strict_maxima [0; 1]%Q 2 1 2
  = Raise LibraryError /\
  exists grid h,
    arange 2 1 = Ok grid /\ In h grid /\
    mode_count positive_kde strict_maxima [0; 1]%Q h = Raise LibraryError.
Proof.
  assert (H : binary_search positive_kde strict_maxima [0; 1]%Q 2 1 2
              = Raise LibraryError) by (vm_compute; reflexivity).
  split; [exact H | ].
  destruct (binary_search_raise_origin
              positive_kde strict_maxima [0; 1]%Q 2 1 2 LibraryError H)
    as [Ha | Hex]; [vm_compute in Ha; discriminate | exact Hex].
Defined.

(** Sample [0, 5], grid [0, 1], [k = 1]: both grid points have two modes. *)
Lemma binary_search_no_match_witness :
  binary_search cluster_kde strict_maxima [0; 5]%Q 2 1 1 = Ok placeholder.
Proof.
  apply (binary_search_no_match
           cluster_kde strict_maxima [0; 5]%Q 2 1 1 [0; 1]%Q eq_refl).
  intros h [E | [E | []]]; subst h; exists 2;
    (split; [vm_compute; reflexivity | discriminate]).
Defined.

(** [searchMax = 0] with the notebook's step. *)
Lemma binary_search_empty_grid_witness :
  binary_search cluster_kde strict_maxima chondrites 0 0.01 2
  = Ok placeholder.
Proof.
  apply (binary_search_empty_grid
           cluster_kde strict_maxima chondrites 0 0.01 2 eq_refl).
  discriminate.
Defined.

(** Sample [0, 5], grid [0, 1], [k = -1]. *)
Lemma binary_search_negative_k_witness :
  binary_search cluster_kde strict_maxima [0; 5]%Q 2 1 (-1) = Ok 12345%Q /\
  12345%Q = placeholder.
Proof.
  assert (H : binary_search cluster_kde strict_maxima [0; 5]%Q 2 1 (-1)
              = Ok 12345%Q) by (vm_compute; reflexivity).
  split; [exact H | ].
  apply (binary_search_negative_k
           cluster_kde strict_maxima [0; 5]%Q 2 1 (-1) 12345%Q
           ltac:(lia) H).
Defined.

(** ** The search on counts that do not grow with the bandwidth *)

Section CountedGrid.

Variable kde : list Q -> Q -> result line.
Variable argrelmax : list Q -> list Z.
Variable data searchList : list Q.
Variable k : Z.

#[local] Abbreviation size := (Z.of_nat (List.length searchList)).
#[local] Abbreviation count := (mode_count kde argrelmax data).
#[local] Abbreviation step := (body kde argrelmax data searchList k).
#[local] Abbreviation loop := (while_loop kde argrelmax data searchList k).

(** X7.  An iteration that goes on leaves at most half of the index range. *)
Theorem iteration_halves (s s' : bs_state) :
  0 <= start s -> guard s = true -> step s = Ok s' -> found s' = false ->
  end_ s' - start s' + 1 <= (end_ s - start s + 1) / 2.
Proof.
  intros H0 Hg Hb Hf'. apply guard_true in Hg. destruct Hg as [Hle Hf].
  assert (Hmid : midpoint_of s = (start s + end_ s) / 2)
    by (unfold midpoint_of; apply Z.quot_div_nonneg; lia).
  destruct (body_iteration _ _ _ _ _ _ _ Hb); subst s'; simpl in *;
    try discriminate; rewrite Hmid;
    apply Z.div_le_lower_bound; try lia;
    pose proof (Z.mul_div_le (start s + end_ s) 2 ltac:(lia));
    pose proof (Z.mul_succ_div_gt (start s + end_ s) 2 ltac:(lia)); lia.
Qed.

(** [c i] is the count at grid index [i]. *)
Variable c : Z -> Z.

Hypothesis counted :
  forall i, 0 <= i < size ->
            exists h, nth_error searchList (Z.to_nat i) = Some h /\
                      count h = Ok (c i).


Hypothesis antitone : forall i j, 0 <= i -> i <= j -> j < size -> c j <= c i.



End CountedGrid.

Section MonotoneSearch.

Variable kde : list Q -> Q -> result line.
Variable argrelmax : list Q -> list Z.
Variable data : list Q.
Variable searchMax searchStep : Q.
Variable k : Z.

#[local] Abbreviation points := (Z.of_nat (arange_len searchMax searchStep)).
#[local] Abbreviation count := (mode_count kde argrelmax data).
#[local] Abbreviation grid :=
  (map (fun i => inject_Z (Z.of_nat i) * searchStep)%Q
       (seq 0 (arange_len searchMax searchStep))).




End MonotoneSearch.



(** Sample [1, 4], grid [0 .. 9], [k = 1]: from the range [0 .. 9], ten
    indices, the iteration goes on with [0 .. 3], four indices. *)
Lemma iteration_halves_witness :
  end_ (mk_bs 0 3 false placeholder) - start (mk_bs 0 3 false placeholder) + 1
  <= (9 - 0 + 1) / 2.
Proof.
  apply (iteration_halves
           cluster_kde strict_maxima [1; 4]%Q
           [0; 1; 2; 3; 4; 5; 6; 7; 8; 9]%Q 1
           (mk_bs 0 9 false placeholder) (mk_bs 0 3 false placeholder)).
  - simpl. lia.
  - reflexivity.
  - vm_compute. reflexivity.
  - reflexivity.
Defined.

(** ** find_critical_value and the loop of bootstrap *)

Section CriticalFacts.

Variable kde : list Q -> Q -> result line.
Variable argrelmax : list Q -> list Z.
Variable Rng : Type.
Variable resample : list Q -> Q -> Rng -> result (list Q) * Rng.

#[local] Abbreviation search := (binary_search kde argrelmax).
#[local] Abbreviation critical :=
  (find_critical_value kde argrelmax Rng resample).
#[local] Abbreviation for_loop :=
  (bootstrap_loop kde argrelmax Rng resample).

Lemma find_critical_value_Ok (data : list Q) (searchMax searchStep : Q)
      (k : Z) (w w' : World Rng) (h : Q) :
  critical data searchMax searchStep k w = (Ok h, w') ->
  exists h_crit X g,
    search data searchMax searchStep k = Ok h_crit /\
    resample data h_crit (rng Rng w) = (Ok X, g) /\
    w' = mk_world Rng g (stdout Rng w) /\
    search X searchMax searchStep k = Ok h.
Proof.
  unfold find_critical_value. intros H.
  destruct (search data searchMax searchStep k) as [h_crit | e];
    [ | inversion H].
  destruct (resample data h_crit (rng Rng w)) as [[X | e] g] eqn:Hr;
    inversion H; subst.
  exists h_crit, X, g. auto.
Qed.

(** X10.  The value [find_critical_value] returns belongs to the resample, not to
    the data: it is what [binary_search] gives for the one sample drawn at
    the data's critical bandwidth, hence 12345 or a grid point at which the
    resample has [k] modes.  One draw is made and nothing is printed. *)
Theorem find_critical_value_result
        (data : list Q) (searchMax searchStep : Q) (k : Z)
        (w w' : World Rng) (h : Q) :
  critical data searchMax searchStep k w = (Ok h, w') ->
  exists h_crit X g,
    search data searchMax searchStep k = Ok h_crit /\
    resample data h_crit (rng Rng w) = (Ok X, g) /\
    w' = mk_world Rng g (stdout Rng w) /\
    search X searchMax searchStep k = Ok h /\
    (h = placeholder \/
     exists mid,
       0 <= mid < Z.of_nat (arange_len searchMax searchStep) /\
       h = (inject_Z mid * searchStep)%Q /\
       mode_count kde argrelmax X h = Ok k).
Proof.
  intros H. apply find_critical_value_Ok in H.
  destruct H as (h_crit & X & g & Hs & Hr & Hw & Hx).
  exists h_crit, X, g. repeat split; try assumption.
  apply (binary_search_result kde argrelmax X searchMax searchStep k h Hx).
Qed.

(** X11.  When the search on the data finds nothing, [find_critical_value] goes on:
    it resamples with the placeholder 12345 as the bandwidth and searches
    the sample drawn. *)
Theorem find_critical_value_resamples_at_placeholder
        (data : list Q) (searchMax searchStep : Q) (k : Z) (s : bs_state)
        (w : World Rng) :
  binary_search_state kde argrelmax data searchMax searchStep k = Ok s ->
  found s = false ->
  critical data searchMax searchStep k w =
  (X <- fst (resample data placeholder (rng Rng w)) ;;
   search X searchMax searchStep k,
   mk_world Rng (snd (resample data placeholder (rng Rng w)))
            (stdout Rng w)).
Proof.
  intros Hs Hf.
  destruct (search_inv_final _ _ _ _ _ _ _ Hs) as (grid & _ & Hinv & _).
  destruct Hinv as (_ & Hph & _).
  unfold find_critical_value, binary_search. rewrite Hs. simpl.
  rewrite (Hph Hf).
  destruct (resample data placeholder (rng Rng w)) as [[X | e] g];
    reflexivity.
Qed.

Lemma bootstrap_loop_spec (data : list Q) (searchMax searchStep : Q) (k : Z)
      (idxs : list Z) :
  forall hlist w hlist' w',
    for_loop data searchMax searchStep k idxs hlist w = (Ok hlist', w') ->
    stdout Rng w' = stdout Rng w ++ idxs /\
    exists new,
      hlist' = hlist ++ new /\
      List.length new = List.length idxs /\
      (forall h, In h new ->
                 h = placeholder \/
                 exists mid,
                   0 <= mid < Z.of_nat (arange_len 10 0.01) /\
                   h = (inject_Z mid * 0.01)%Q).
Proof.
  induction idxs as [ | i rest IH]; intros hlist w hlist' w' H; simpl in H.
  - inversion H; subst. rewrite !app_nil_r. split; [reflexivity | ].
    exists []. rewrite app_nil_r. repeat split. intros h [].
  - destruct (critical chondrites 10 0.01 2 (print Rng i w))
      as [[h | e] w2] eqn:Hc; [ | discriminate].
    apply find_critical_value_Ok in Hc.
    destruct Hc as (h_crit & X & g & _ & _ & Hw2 & Hx).
    apply IH in H. destruct H as (Hout & new & Hh & Hlen & Hin).
    split.
    + rewrite Hout, Hw2. simpl. rewrite <- app_assoc. reflexivity.
    + exists (h :: new). rewrite Hh, <- app_assoc. simpl.
      repeat split; [congruence | ].
      intros h0 [E | Hn]; [subst h0 | auto].
      apply binary_search_result in Hx.
      destruct Hx as [E | (mid & Hm & Hv & _)]; [auto | right; eauto].
Qed.

(** X12.  A run of the loop of [bootstrap] that does not raise prints the indices
    it was given, in order, and appends one value per index to [hlist],
    leaving the values already there in place. *)
Theorem bootstrap_loop_trace
        (data : list Q) (searchMax searchStep : Q) (k : Z) (idxs : list Z)
        (hlist hlist' : list Q) (w w' : World Rng) :
  for_loop data searchMax searchStep k idxs hlist w = (Ok hlist', w') ->
  stdout Rng w' = stdout Rng w ++ idxs /\
  exists new, hlist' = hlist ++ new /\ List.length new = List.length idxs.
Proof.
  intros H. apply bootstrap_loop_spec in H.
  destruct H as (Hout & new & Hh & Hlen & _).
  split; [assumption | ]. exists new. auto.
Qed.

(** X13.  Every value the loop of [bootstrap] records is 12345 or one of the
    thousand grid points [mid * 0.01] of the fixed search range, whatever
    [searchMax] and [searchStep] were passed. *)
Theorem bootstrap_loop_values
        (data : list Q) (searchMax searchStep : Q) (k num_simulations : Z)
        (hlist : list Q) (w w' : World Rng) (h : Q) :
  for_loop data searchMax searchStep k (py_range 0 num_simulations) [] w
  = (Ok hlist, w') ->
  In h hlist ->
  h = placeholder \/
  exists mid, 0 <= mid < 1000 /\ h = (inject_Z mid * 0.01)%Q.
Proof.
  intros H Hin. apply bootstrap_loop_spec in H.
  destruct H as (_ & new & Hh & _ & Hv). simpl in Hh. subst hlist.
  apply Hv in Hin. exact Hin.
Qed.

(** X14.  No simulation: for [num_simulations <= 0] the loop body never runs, so
    nothing is searched, drawn or printed; the call goes straight to the
    [return] statement with an empty [hlist]. *)
Theorem bootstrap_no_simulations
        (globals : list (string * pyobj))
        (data : list Q) (searchMax searchStep : Q) (k num_simulations : Z)
        (w : World Rng) :
  num_simulations <= 0 ->
  bootstrap kde argrelmax Rng resample globals
            data searchMax searchStep k num_simulations w =
  (modesList <- load_global globals "modesList" ;; Ok ([], modesList), w).
Proof.
  intros Hn. unfold bootstrap, py_range.
  replace (Z.to_nat (num_simulations - 0)) with 0%nat by lia.
  reflexivity.
Qed.

End CriticalFacts.

(** Sample [1, 5], [searchMax = 10], [searchStep = 1], [k = 1], with the
    stand-ins: the result is the grid point 4. *)
Lemma find_critical_value_result_witness :
  find_critical_value cluster_kde strict_maxima nat same_sample
    [1; 5]%Q 10 1 1 (mk_world nat 0%nat []) = (Ok 4%Q, mk_world nat 1%nat []) /\
  exists h_crit X g,
    binary_search cluster_kde strict_maxima [1; 5]%Q 10 1 1 = Ok h_crit /\
    same_sample [1; 5]%Q h_crit 0%nat = (Ok X, g) /\
    mk_world nat 1%nat [] = mk_world nat g [] /\
    binary_search cluster_kde strict_maxima X 10 1 1 = Ok 4%Q /\
    (4%Q = placeholder \/
     exists mid,
       0 <= mid < Z.of_nat (arange_len 10 1) /\
       4%Q = (inject_Z mid * 1)%Q /\
       mode_count cluster_kde strict_maxima X 4 = Ok 1).
Proof.
  assert (H : find_critical_value cluster_kde strict_maxima nat same_sample
                [1; 5]%Q 10 1 1 (mk_world nat 0%nat [])
              = (Ok 4%Q, mk_world nat 1%nat []))
    by (vm_compute; reflexivity).
  split; [exact H | ].
  apply (find_critical_value_result
           cluster_kde strict_maxima nat same_sample
           [1; 5]%Q 10 1 1 (mk_world nat 0%nat []) (mk_world nat 1%nat [])
           4%Q H).
Defined.

(** Sample [0, 5], grid [0, 1], [k = 1]: no match on the data, and the
    resample is drawn at bandwidth 12345. *)
Lemma find_critical_value_placeholder_witness :
  binary_search_state cluster_kde strict_maxima [0; 5]%Q 2 1 1
  = Ok (mk_bs 2 1 false placeholder) /\
  find_critical_value cluster_kde strict_maxima nat same_sample
    [0; 5]%Q 2 1 1 (mk_world nat 0%nat []) =
  (X <- fst (same_sample [0; 5]%Q placeholder 0%nat) ;;
   binary_search cluster_kde strict_maxima X 2 1 1,
   mk_world nat (snd (same_sample [0; 5]%Q placeholder 0%nat)) []).
Proof.
  assert (H : binary_search_state cluster_kde strict_maxima [0; 5]%Q 2 1 1
              = Ok (mk_bs 2 1 false placeholder))
    by (vm_compute; reflexivity).
  split; [exact H | ].
  apply (find_critical_value_resamples_at_placeholder
           cluster_kde strict_maxima nat same_sample
           [0; 5]%Q 2 1 1 (mk_bs 2 1 false placeholder)
           (mk_world nat 0%nat []) H eq_refl).
Defined.

(** Three iterations with the stand-ins: 0, 1, 2 are printed and three
    values are recorded. *)
Lemma bootstrap_loop_trace_witness :
  bootstrap_loop cluster_kde strict_maxima nat same_sample
    [1; 5]%Q 10 1 1 (py_range 0 3) [] (mk_world nat 0%nat [])
  = (Ok [1.79; 1.79; 1.79]%Q, mk_world nat 3%nat [0; 1; 2]) /\
  [0; 1; 2] = [] ++ py_range 0 3.
Proof.
  assert (H : bootstrap_loop cluster_kde strict_maxima nat same_sample
                [1; 5]%Q 10 1 1 (py_range 0 3) [] (mk_world nat 0%nat [])
              = (Ok [1.79; 1.79; 1.79]%Q, mk_world nat 3%nat [0; 1; 2]))
    by (vm_compute; reflexivity).
  split; [exact H | ].
  apply (bootstrap_loop_trace
           cluster_kde strict_maxima nat same_sample
           [1; 5]%Q 10 1 1 (py_range 0 3) [] [1.79; 1.79; 1.79]%Q
           (mk_world nat 0%nat []) (mk_world nat 3%nat [0; 1; 2]) H).
Defined.

(** The value 1.79 recorded in that run is the grid point [179 * 0.01]. *)
Lemma bootstrap_loop_values_witness :
  1.79%Q = placeholder \/
  exists mid, 0 <= mid < 1000 /\ 1.79%Q = (inject_Z mid * 0.01)%Q.
Proof.
  apply (bootstrap_loop_values
           cluster_kde strict_maxima nat same_sample
           [1; 5]%Q 10 1 1 3 [1.79; 1.79; 1.79]%Q
           (mk_world nat 0%nat []) (mk_world nat 3%nat [0; 1; 2]) 1.79%Q).
  - vm_compute. reflexivity.
  - left. reflexivity.
Defined.

(** [num_simulations = 0] in the notebook's namespace: [NameError], and the
    world is as it was. *)
Lemma bootstrap_no_simulations_witness :
  bootstrap cluster_kde strict_maxima nat same_sample notebook_globals
            chondrites 10 0.01 2 0 (mk_world nat 0%nat [])
  = (Raise (NameError "modesList"), mk_world nat 0%nat []).
Proof.
  rewrite (bootstrap_no_simulations
             cluster_kde strict_maxima nat same_sample notebook_globals
             chondrites 10 0.01 2 0 (mk_world nat 0%nat []) ltac:(lia)).
  reflexivity.
Defined.
